(** * The Kozai-cycle driver of REBOUNDx ([examples/kozai/problem.c])

    The driver builds a three-body system (star, planet, distant
    perturber), attaches the tidal spin force, writes one text record per
    loop iteration and advances the simulation between records.

    How the C program is modelled:
    - [double] is the real numbers [R] and [M_PI] is [PI]; rounding, NaN and
      infinities are not modelled.
    - [main] is a program in a state and failure monad.  The state is the
      simulation object [*r] together with the trace of the actions of the
      driver (library calls, stores into [*r], output), oldest first.
      Failure stands for the undefined behaviour of C: reading
      [r->particles[i]] for a particle that does not exist, or reading
      through the NULL pointer a failed parameter lookup returns.
    - The REBOUND and REBOUNDx libraries are not part of the source file.
      They are a parameter of the development (record [library]); what is
      assumed of them is stated as contracts ([store_contract],
      [clock_contract], [spin_contract]) taken from the design document.
      The parameter store itself is modelled from the design document.
    - The output file is taken to open; what is written to it is read off
      the trace, each [fprintf] as its format and its arguments. *)

From Stdlib Require Import Reals Lra Lia ZArith Ascii String Sorted.
From stdpp Require Import base list strings gmap.

Local Open Scope R_scope.

(** ** Data model *)

(** [enum REB_INTEGRATOR] of rebound.h, as far as the driver is concerned. *)
Inductive reb_integrator :=
| REB_INTEGRATOR_IAS15
| REB_INTEGRATOR_WHFAST
| REB_INTEGRATOR_SEI
| REB_INTEGRATOR_LEAPFROG
| REB_INTEGRATOR_NONE.

(** The function pointer stored in [r->heartbeat]. *)
Inductive callback :=
| CB_none
| CB_heartbeat.

(** [struct reb_particle]: Cartesian state, mass, radius and the
    per-particle parameter side-table [ap] (string-keyed, one entry per
    key). *)
Record reb_particle := mk_particle {
  x : R; y : R; z : R;
  vx : R; vy : R; vz : R;
  m : R;
  r : R;
  ap : gmap string R
}.

(** [struct reb_particle p = {0}] *)
Definition particle_zero : reb_particle :=
  mk_particle 0 0 0 0 0 0 0 0 ∅.

Definition set_m (p : reb_particle) (v : R) : reb_particle :=
  mk_particle (x p) (y p) (z p) (vx p) (vy p) (vz p) v (r p) (ap p).

Definition set_r (p : reb_particle) (v : R) : reb_particle :=
  mk_particle (x p) (y p) (z p) (vx p) (vy p) (vz p) (m p) v (ap p).

Definition set_ap (p : reb_particle) (a : gmap string R) : reb_particle :=
  mk_particle (x p) (y p) (z p) (vx p) (vy p) (vz p) (m p) (r p) a.

(** [struct reb_orbit], the fields the driver reads. *)
Record reb_orbit := mk_orbit {
  o_a : R; o_e : R; o_inc : R;
  o_Omega : R; o_pomega : R; o_f : R
}.

(** [struct reb_vec3d] *)
Record reb_vec3d := mk_vec3d { v_x : R; v_y : R; v_z : R }.

Section Driver.

(** The part of [struct reb_simulation] and [struct rebx_extras] that the
    driver never touches (integrator work arrays, registered forces, the
    auxiliary ODE state, ...). *)
Context {lib_state : Type}.

(** [struct reb_simulation]: the fields the driver reads or writes, and the
    rest. *)
Record reb_simulation := mk_sim {
  t : R;
  dt : R;
  G : R;
  integrator : reb_integrator;
  heartbeat_cb : callback;
  particles : list reb_particle;
  internal : lib_state
}.

Definition set_dt (s : reb_simulation) (v : R) : reb_simulation :=
  mk_sim (t s) v (G s) (integrator s) (heartbeat_cb s) (particles s) (internal s).

Definition set_integrator (s : reb_simulation) (i : reb_integrator) : reb_simulation :=
  mk_sim (t s) (dt s) (G s) i (heartbeat_cb s) (particles s) (internal s).

Definition set_heartbeat (s : reb_simulation) (c : callback) : reb_simulation :=
  mk_sim (t s) (dt s) (G s) (integrator s) c (particles s) (internal s).

Definition set_particles (s : reb_simulation) (ps : list reb_particle) : reb_simulation :=
  mk_sim (t s) (dt s) (G s) (integrator s) (heartbeat_cb s) ps (internal s).

(** ** The library the driver is linked against *)

(** The functions of REBOUND and REBOUNDx that [main] calls and whose code
    is not in the source file.  State-changing functions map the simulation
    to the simulation after the call. *)
Record library := mk_library {
  reb_create_simulation : reb_simulation;
  reb_add : reb_simulation -> reb_particle -> reb_simulation;
  reb_add_fmt : reb_simulation -> string -> list R -> reb_simulation;
  reb_move_to_com : reb_simulation -> reb_simulation;
  reb_tools_particle_to_orbit : R -> reb_particle -> reb_particle -> reb_orbit;
  reb_get_com_of_pair : reb_particle -> reb_particle -> reb_particle;
  reb_integrate : reb_simulation -> R -> reb_simulation;
  reb_output_check : reb_simulation -> R -> bool * reb_simulation;
  reb_free_simulation : reb_simulation -> reb_simulation;
  rebx_attach : reb_simulation -> reb_simulation;
  rebx_load_force : reb_simulation -> string -> reb_simulation;
  rebx_add_force : reb_simulation -> string -> reb_simulation;
  rebx_set_time_lag : reb_simulation -> nat -> R -> reb_simulation;
  align_simulation : reb_simulation -> reb_simulation;
  rebx_spin_initialize_ode : reb_simulation -> string -> reb_simulation;
  rebx_free : reb_simulation -> reb_simulation
}.

(** Modelled from the spec: the parameter store of REBOUNDx
    ([rebx_set_param_double], [rebx_get_param]) is not in the source file.
    Parameters are string-keyed per particle, one entry per key; a set on a
    particle that does not exist is an invalid-index failure. *)
Definition rebx_set_param_double (s : reb_simulation) (i : nat) (key : string) (v : R)
  : option reb_simulation :=
  match particles s !! i with
  | Some p => Some (set_particles s (<[i := set_ap p (<[key := v]> (ap p))]> (particles s)))
  | None => None
  end.

(** Modelled from the spec: a get of an unknown key reports "not found"
    (the NULL pointer of the C interface), never a default value. *)
Definition rebx_get_param (a : gmap string R) (key : string) : option R :=
  a !! key.

(** ** Observable actions of the driver *)

Inductive event :=
| Ev_reb_create_simulation
| Ev_store_dt (v : R)
| Ev_store_integrator (i : reb_integrator)
| Ev_store_heartbeat (c : callback)
| Ev_reb_add (p : reb_particle)
| Ev_reb_add_fmt (fmt : string) (args : list R)
| Ev_rebx_attach
| Ev_rebx_load_force (name : string)
| Ev_rebx_add_force (name : string)
| Ev_rebx_set_param_double (i : nat) (key : string) (v : R)
| Ev_rebx_set_time_lag (i : nat) (tau : R)
| Ev_reb_move_to_com
| Ev_align_simulation
| Ev_rebx_spin_initialize_ode (name : string)
| Ev_fopen (path mode : string)
| Ev_fprintf (fmt : string) (args : list R)
| Ev_printf (fmt : string) (args : list R)
| Ev_rebx_get_param (i : nat) (key : string) (res : option R)
| Ev_reb_integrate (target : R)
| Ev_rebx_free
| Ev_reb_free_simulation.

(** The state of a run: the simulation object [*r] and the actions so far,
    oldest first. *)
Record world := mk_world {
  sim : reb_simulation;
  trace : list event
}.

(** ** A state and failure monad for the driver *)

Definition M (A : Type) : Type := world -> option (A * world).

Definition ret {A} (a : A) : M A := fun w => Some (a, w).

Definition bind {A B} (c : M A) (k : A -> M B) : M B :=
  fun w => match c w with
           | Some (a, w') => k a w'
           | None => None
           end.

Notation "v <-- c ;; k" := (bind c (fun v => k))
  (at level 100, c at next level, right associativity).
Notation "c ;;; k" := (bind c (fun _ => k))
  (at level 100, right associativity).

Definition emit (e : event) : M unit :=
  fun w => Some (tt, mk_world (sim w) (trace w ++ [e])).

Definition get_sim : M reb_simulation := fun w => Some (sim w, w).

Definition put_sim (s : reb_simulation) : M unit :=
  fun w => Some (tt, mk_world s (trace w)).

(** An action that cannot fail (a library call, a store into [*r]): log it,
    then let it act on the simulation. *)
Definition act (e : event) (f : reb_simulation -> reb_simulation) : M unit :=
  emit e ;;; s <-- get_sim ;; put_sim (f s).

(** Undefined behaviour of the C program (a read through an invalid or NULL
    pointer) ends the run. *)
Definition abort {A} : M A := fun _ => None.

Definition of_option {A} (o : option A) : M A :=
  match o with Some a => ret a | None => abort end.

(** [r->particles[i]] read through a pointer. *)
Definition load_particle (i : nat) : M reb_particle :=
  s <-- get_sim ;; of_option (particles s !! i).

(** [*p] for a pointer returned by [rebx_get_param]. *)
Definition deref (p : option R) : M R := of_option p.

(** ** The driver *)

Variable L : library.

Definition M_PI : R := PI.

Definition LF : string := String (Ascii.ascii_of_nat 10) EmptyString.
Definition TAB : string := String (Ascii.ascii_of_nat 9) EmptyString.

(** [double tmax = 1e5 * 2 * M_PI;] *)
Definition tmax : R := 1e5 * 2 * M_PI.

(** [void heartbeat(struct reb_simulation* r)]: one call of
    [reb_output_check], which is handed the simulation itself; the body of
    the [if] is empty, so both branches leave what the call left. *)
Definition heartbeat (s : reb_simulation) : reb_simulation :=
  let (due, s') := reb_output_check L s (20 * M_PI) in
  if due then s' else s'.

(** The header line written to the output file (line 88). *)
Definition header : string :=
  "t,starx,stary,starz,starvx,starvy,starvz,star_sx,star_sy,star_sz,a1,i1,e1,s1x,s1y,s1z,mag1,pom1,Om1,f1,p1x,p1y,p1z,p1vx,p1vy,p1vz,a2,i2,e2,Om2,pom2"
  +:+ LF.

(** The format of a data record (line 128). *)
Definition row_format : string :=
  "%.10f,%.10f,%.10f,%.10f,%.10f,%.10f,%.10f,%.10f,%.10f,%.10f,%.10f,%.10f,%.10f,%.10f,%.10f,%.10f,%.10f,%.10f,%.10f,%.10f,%.10f,%.10f,%.10f,%.10f,%.10f,%.10f,%.10f,%.10f,%.10f,%.10f,%.10f"
  +:+ LF.

(** The format of the progress line (line 126). *)
Definition progress_format : string :=
  "t=%f" +:+ TAB +:+ " a1=%.6f" +:+ TAB +:+ " o1=%0.5f" +:+ LF.

(** [rebx_set_param_double(rebx, &r->particles[i].ap, key, v)] *)
Definition set_param (i : nat) (key : string) (v : R) : M unit :=
  emit (Ev_rebx_set_param_double i key v) ;;;
  s <-- get_sim ;;
  s' <-- of_option (rebx_set_param_double s i key v) ;;
  put_sim s'.

(** [rebx_get_param(rebx, r->particles[i].ap, key)]: the particle is read,
    the result is a pointer or NULL. *)
Definition get_param (i : nat) (key : string) : M (option R) :=
  p <-- load_particle i ;;
  let res := rebx_get_param (ap p) key in
  emit (Ev_rebx_get_param i key res) ;;;
  ret res.

(** The locals of [main] that are compile-time constants, under the names
    the source gives them. *)

(** [struct reb_particle star = {0}; star.m = 1.1; star.r = 0.00465;] *)
Definition star : reb_particle := set_r (set_m particle_zero 1.1) 0.00465.

Definition planet_m : R := 7.8 * 9.55e-4.
Definition planet_r : R := 1 * 4.676e-4.
Definition planet_a : R := 5.
Definition planet_e : R := 0.1.
Definition planet_omega : R := 45 * (M_PI / 180).

Definition perturber_inc : R := 85.6 * (M_PI / 180).
Definition perturber_mass : R := 1.1.
Definition perturber_a : R := 1000.
Definition perturber_e : R := 0.0.

Definition solar_spin_period : R := 20 * 2 * M_PI / 365.
Definition solar_spin : R := (2 * M_PI) / solar_spin_period.
Definition solar_k2 : R := 0.028.
Definition solar_tau : R := 0.2 / solar_k2 * (2 * M_PI / 3.154e7).

Definition spin_period_p : R := (10 / 24) * 2 * M_PI / 365.
Definition spin_p : R := (2 * M_PI) / spin_period_p.
Definition planet_k2 : R := 0.51.
Definition planet_tau : R := 0.02 / planet_k2 * (2 * M_PI / 3.154e7).
Definition theta_1 : R := 1 * M_PI / 180.
Definition phi_1 : R := 0 * M_PI / 180.

(** [struct rebx_force* effect = rebx_load_force(rebx, "spin")]: the handle
    is the name of the force. *)
Definition effect : string := "spin".

(** Lines 23 to 88 of [main]: everything before the loop.  The run starts
    in the state [reb_create_simulation] returns (line 21). *)
Definition main_setup : M unit :=
  (* Setup constants *)
  act (Ev_store_dt (M_PI * 1e-1)) (fun s => set_dt s (M_PI * 1e-1)) ;;;
  act (Ev_store_integrator REB_INTEGRATOR_IAS15)
      (fun s => set_integrator s REB_INTEGRATOR_IAS15) ;;;
  act (Ev_store_heartbeat CB_heartbeat) (fun s => set_heartbeat s CB_heartbeat) ;;;
  (* Initial conditions *)
  act (Ev_reb_add star) (fun s => reb_add L s star) ;;;
  (* The planet *)
  act (Ev_reb_add_fmt "m r a e omega" [planet_m; planet_r; planet_a; planet_e; planet_omega])
      (fun s => reb_add_fmt L s "m r a e omega"
                   [planet_m; planet_r; planet_a; planet_e; planet_omega]) ;;;
  (* The perturber *)
  act (Ev_reb_add_fmt "m a e inc" [perturber_mass; perturber_a; perturber_e; perturber_inc])
      (fun s => reb_add_fmt L s "m a e inc"
                   [perturber_mass; perturber_a; perturber_e; perturber_inc]) ;;;
  act Ev_rebx_attach (rebx_attach L) ;;;
  act (Ev_rebx_load_force effect) (fun s => rebx_load_force L s effect) ;;;
  act (Ev_rebx_add_force effect) (fun s => rebx_add_force L s effect) ;;;
  (* Sun *)
  set_param 0 "k2" solar_k2 ;;;
  set_param 0 "moi" (0.08 * m star * r star * r star) ;;;
  set_param 0 "spin_sx" (solar_spin * 0.0) ;;;
  set_param 0 "spin_sy" (solar_spin * 0.0) ;;;
  set_param 0 "spin_sz" (solar_spin * 1.0) ;;;
  act (Ev_rebx_set_time_lag 0 solar_tau) (fun s => rebx_set_time_lag L s 0 solar_tau) ;;;
  (* P1 *)
  set_param 1 "k2" planet_k2 ;;;
  set_param 1 "moi" (0.25 * planet_m * planet_r * planet_r) ;;;
  set_param 1 "spin_sx" (spin_p * sin theta_1 * sin phi_1) ;;;
  set_param 1 "spin_sy" (spin_p * sin theta_1 * cos phi_1) ;;;
  set_param 1 "spin_sz" (spin_p * cos theta_1) ;;;
  act (Ev_rebx_set_time_lag 1 planet_tau) (fun s => rebx_set_time_lag L s 1 planet_tau) ;;;
  act Ev_reb_move_to_com (reb_move_to_com L) ;;;
  act Ev_align_simulation (align_simulation L) ;;;
  act (Ev_rebx_spin_initialize_ode effect) (fun s => rebx_spin_initialize_ode L s effect) ;;;
  emit (Ev_fopen "11_28_HD80860.txt" "w") ;;;
  emit (Ev_fprintf header []).

(** Lines 91 to 129: one iteration of the loop, [i] the loop counter. *)
Definition main_loop_body (i : Z) : M unit :=
  let sun := 0%nat in
  let p1 := 1%nat in
  let pert := 2%nat in
  star_sx <-- get_param sun "spin_sx" ;;
  star_sy <-- get_param sun "spin_sy" ;;
  star_sz <-- get_param sun "spin_sz" ;;
  sx1 <-- get_param p1 "spin_sx" ;;
  sy1 <-- get_param p1 "spin_sy" ;;
  sz1 <-- get_param p1 "spin_sz" ;;
  s <-- get_sim ;;
  p1_v <-- load_particle p1 ;;
  sun_v <-- load_particle sun ;;
  let o1 := reb_tools_particle_to_orbit L (G s) p1_v sun_v in
  let a1 := o_a o1 in
  let Om1 := o_Omega o1 in
  let i1 := o_inc o1 in
  let pom1 := o_pomega o1 in
  let f1 := o_f o1 in
  let e1 := o_e o1 in
  s1x <-- deref sx1 ;;
  s1y <-- deref sy1 ;;
  s1z <-- deref sz1 ;;
  let s1 := mk_vec3d s1x s1y s1z in
  let com := reb_get_com_of_pair L sun_v p1_v in
  pert_v <-- load_particle pert ;;
  let o2 := reb_tools_particle_to_orbit L (G s) pert_v com in
  let a2 := o_a o2 in
  let Om2 := o_Omega o2 in
  let i2 := o_inc o2 in
  let pom2 := o_pomega o2 in
  let e2 := o_e o2 in
  (* Interpret in the planet frame *)
  let mag1 := sqrt (v_x s1 * v_x s1 + v_y s1 * v_y s1 + v_z s1 * v_z s1) in
  let ob1 := acos (v_z s1 / mag1) * (180 / M_PI) in
  (if (Z.rem i 10000 =? 0)%Z
   then emit (Ev_printf progress_format [t s / (2 * M_PI); a1; ob1])
   else ret tt) ;;;
  ssx <-- deref star_sx ;;
  ssy <-- deref star_sy ;;
  ssz <-- deref star_sz ;;
  emit (Ev_fprintf row_format
    [t s / (2 * M_PI); x sun_v; y sun_v; z sun_v; vx sun_v; vy sun_v; vz sun_v;
     ssx; ssy; ssz; a1; i1; e1; v_x s1; v_y s1; v_z s1; mag1; pom1; Om1; f1;
     x p1_v; y p1_v; z p1_v; vx p1_v; vy p1_v; vz p1_v; a2; i2; e2; Om2; pom2]) ;;;
  now <-- get_sim ;;
  act (Ev_reb_integrate (t now + (100 * 2 * M_PI)))
      (fun s' => reb_integrate L s' (t now + (100 * 2 * M_PI))).

(** [for (int i = start; ...; i++)] over [count] iterations. *)
Fixpoint main_loop (count : nat) (i : Z) : M unit :=
  match count with
  | O => ret tt
  | S count' => main_loop_body i ;;; main_loop count' (i + 1)%Z
  end.

(** The bound of the loop at line 90. *)
Definition N_ITER : Z := 1000000.

(** Lines 131 and 132. *)
Definition main_cleanup : M unit :=
  act Ev_rebx_free (rebx_free L) ;;;
  act Ev_reb_free_simulation (reb_free_simulation L).

(** The state after line 21. *)
Definition start : world :=
  mk_world (reb_create_simulation L) [Ev_reb_create_simulation].

Definition main : option (unit * world) :=
  (main_setup ;;; main_loop (Z.to_nat N_ITER) 0 ;;; main_cleanup) start.

(** ** What the design document promises about the library *)

(** The value stored for [key] on particle [i], if any. *)
Definition param (s : reb_simulation) (i : nat) (key : string) : option R :=
  match particles s !! i with
  | Some p => rebx_get_param (ap p) key
  | None => None
  end.

Definition has_particle (s : reb_simulation) (i : nat) : Prop :=
  is_Some (particles s !! i).

(** Particle indices are stable and a particle keeps the entries of its
    side-table: whatever exists in [s] still exists in [s']. *)
Definition keeps_store (s s' : reb_simulation) : Prop :=
  (forall i, has_particle s i -> has_particle s' i) /\
  (forall i key, is_Some (param s i key) -> is_Some (param s' i key)).

(** The state-store contract: adding a particle appends it, and no other
    library call of the driver removes a particle or a parameter entry. *)
Record store_contract : Prop := mk_store_contract {
  reb_add_appends :
    forall s p, particles (reb_add L s p) = particles s ++ [p];
  reb_add_fmt_appends :
    forall s fmt args, exists p, particles (reb_add_fmt L s fmt args) = particles s ++ [p];
  rebx_attach_keeps : forall s, keeps_store s (rebx_attach L s);
  rebx_load_force_keeps : forall s name, keeps_store s (rebx_load_force L s name);
  rebx_add_force_keeps : forall s name, keeps_store s (rebx_add_force L s name);
  rebx_set_time_lag_keeps : forall s i tau, keeps_store s (rebx_set_time_lag L s i tau);
  reb_move_to_com_keeps : forall s, keeps_store s (reb_move_to_com L s);
  align_simulation_keeps : forall s, keeps_store s (align_simulation L s);
  rebx_spin_initialize_ode_keeps :
    forall s name, keeps_store s (rebx_spin_initialize_ode L s name);
  reb_integrate_keeps : forall s target, keeps_store s (reb_integrate L s target)
}.

(** The clock contract of [advanceTo]: the call returns with the simulation
    clock on the requested time. *)
Definition clock_contract : Prop :=
  forall s target, t (reb_integrate L s target) = target.

(** The squared length of the spin vector of particle [i]. *)
Definition spin_norm2 (s : reb_simulation) (i : nat) : option R :=
  match param s i "spin_sx", param s i "spin_sy", param s i "spin_sz" with
  | Some sx, Some sy, Some sz => Some (sx * sx + sy * sy + sz * sz)
  | _, _, _ => None
  end.

Definition keeps_spin_norm (s s' : reb_simulation) : Prop :=
  forall i n, spin_norm2 s i = Some n -> spin_norm2 s' i = Some n.

(** The design document lets only the integrator change the auxiliary
    variables.  The spin contract asks less of the calls between the last
    parameter store and the loop: they may turn a spin vector (as aligning
    the axes does) but leave its length as it is. *)
Record spin_contract : Prop := mk_spin_contract {
  rebx_set_time_lag_spin : forall s i tau, keeps_spin_norm s (rebx_set_time_lag L s i tau);
  reb_move_to_com_spin : forall s, keeps_spin_norm s (reb_move_to_com L s);
  align_simulation_spin : forall s, keeps_spin_norm s (align_simulation L s);
  rebx_spin_initialize_ode_spin :
    forall s name, keeps_spin_norm s (rebx_spin_initialize_ode L s name)
}.

(** ** Reading a trace *)

(** The target times of the [reb_integrate] calls, in order. *)
Definition integrate_target (e : event) : option R :=
  match e with Ev_reb_integrate target => Some target | _ => None end.

Definition integrate_targets (tr : list event) : list R := omap integrate_target tr.

(** The records written to the output file after the header: format and
    arguments of every [fprintf] that has arguments. *)
Definition data_record (e : event) : option (string * list R) :=
  match e with
  | Ev_fprintf fmt (a :: args) => Some (fmt, a :: args)
  | _ => None
  end.

Definition data_records (tr : list event) : list (string * list R) := omap data_record tr.

(** The header lines written to the output file: every [fprintf] without
    arguments. *)
Definition header_line (e : event) : option string :=
  match e with
  | Ev_fprintf fmt [] => Some fmt
  | _ => None
  end.

Definition header_lines (tr : list event) : list string := omap header_line tr.

(** The parameter lookups: particle, key and what the lookup returned. *)
Definition lookup_result (e : event) : option (nat * string * option R) :=
  match e with Ev_rebx_get_param i key res => Some (i, key, res) | _ => None end.

Definition lookups (tr : list event) : list (nat * string * option R) :=
  omap lookup_result tr.

(** [e] happens in [tr] at a point before which the simulation time has
    never been advanced: no [reb_integrate] call precedes it. *)
Definition before_integration (e : event) (tr : list event) : Prop :=
  exists l1 l2, tr = l1 ++ e :: l2 /\ integrate_targets l1 = [].

(** ** Reading a text line *)

(** The comma-separated fields of a line; the line feed ends the line. *)
Fixpoint fields_from (cur : string) (line : string) : list string :=
  match line with
  | EmptyString => [cur]
  | String c rest =>
      if Ascii.eqb c ","%char then cur :: fields_from EmptyString rest
      else if Ascii.eqb c (Ascii.ascii_of_nat 10) then [cur]
      else fields_from (cur +:+ String c EmptyString) rest
  end.

Definition fields (line : string) : list string := fields_from EmptyString line.

(** The number of conversion specifications of a [printf] format ([%%]
    prints a percent sign and converts nothing). *)
Fixpoint conversions (fmt : string) : nat :=
  match fmt with
  | String "%"%char (String "%"%char rest) => conversions rest
  | String "%"%char rest => S (conversions rest)
  | String _ rest => conversions rest
  | EmptyString => O
  end.

(** The actions of the loop body: lookups, output and [reb_integrate]. *)
Definition loop_event (e : event) : Prop :=
  match e with
  | Ev_rebx_get_param _ _ _ | Ev_printf _ _ | Ev_fprintf _ _ | Ev_reb_integrate _ => True
  | _ => False
  end.

(** The values stored into [r->dt] and [r->integrator], in order. *)
Definition dt_store (e : event) : option R :=
  match e with Ev_store_dt v => Some v | _ => None end.

Definition integrator_store (e : event) : option reb_integrator :=
  match e with Ev_store_integrator i => Some i | _ => None end.

(** ** Reading the arguments of [reb_add_fmt] *)

(** The words of a format such as ["m r a e omega"]. *)
Fixpoint words_from (cur : string) (fmt : string) : list string :=
  match fmt with
  | EmptyString => [cur]
  | String c rest =>
      if Ascii.eqb c " "%char then cur :: words_from EmptyString rest
      else words_from (cur +:+ String c EmptyString) rest
  end.

Definition words (fmt : string) : list string := words_from EmptyString fmt.

Fixpoint arg_of (key : string) (names : list string) (args : list R) : option R :=
  match names, args with
  | n :: names', a :: args' => if String.eqb n key then Some a else arg_of key names' args'
  | _, _ => None
  end.

(** [reb_add_fmt] pairs the words of its format with its arguments by
    position: the value passed for [key], if the format names it. *)
Definition fmt_arg (fmt : string) (args : list R) (key : string) : option R :=
  arg_of key (words fmt) args.



(** The mass a particle is constructed with. *)
Definition construction_mass (e : event) : option R :=
  match e with
  | Ev_reb_add p => Some (m p)
  | Ev_reb_add_fmt fmt args => fmt_arg fmt args "m"
  | _ => None
  end.

Definition masses_passed (tr : list event) : list R := omap construction_mass tr.

(** ** Runs *)

(** The run up to the start of iteration [k] of the loop (setup and [k]
    iterations). *)
Definition run_iterations (k : nat) : option (unit * world) :=
  (main_setup ;;; main_loop k 0) start.

(** The simulation time the loop covers: the clock when the loop is left
    minus the clock when it is entered. *)
Definition time_advanced : option R :=
  match run_iterations 0, run_iterations (Z.to_nat N_ITER) with
  | Some (_, w0), Some (_, w1) => Some (t (sim w1) - t (sim w0))
  | _, _ => None
  end.

(** ** The record the design document describes *)

Fixpoint assoc (name : string) (table : list (string * option R)) : option R :=
  match table with
  | [] => None
  | (n, v) :: rest => if String.eqb n name then v else assoc name rest
  end.

(** The quantity each column name stands for in state [s]: the time in
    units of 2 pi, the Cartesian state and the spin of the star (particle 0)
    and of the planet (particle 1), the length of the planet's spin, the
    elements of the inner orbit (planet about star) and of the outer orbit
    (perturber, particle 2, about the centre of mass of the inner pair). *)
Definition column (s : reb_simulation) (name : string) : option R :=
  match particles s !! 0%nat, particles s !! 1%nat, particles s !! 2%nat with
  | Some sun, Some p1, Some pert =>
      let inner := reb_tools_particle_to_orbit L (G s) p1 sun in
      let outer :=
        reb_tools_particle_to_orbit L (G s) pert (reb_get_com_of_pair L sun p1) in
      assoc name
        [ ("t", Some (t s / (2 * M_PI)));
          (* the star *)
          ("starx", Some (x sun)); ("stary", Some (y sun)); ("starz", Some (z sun));
          ("starvx", Some (vx sun)); ("starvy", Some (vy sun)); ("starvz", Some (vz sun));
          ("star_sx", param s 0 "spin_sx"); ("star_sy", param s 0 "spin_sy");
          ("star_sz", param s 0 "spin_sz");
          (* the planet *)
          ("p1x", Some (x p1)); ("p1y", Some (y p1)); ("p1z", Some (z p1));
          ("p1vx", Some (vx p1)); ("p1vy", Some (vy p1)); ("p1vz", Some (vz p1));
          ("s1x", param s 1 "spin_sx"); ("s1y", param s 1 "spin_sy");
          ("s1z", param s 1 "spin_sz");
          ("mag1", sqrt <$> spin_norm2 s 1);
          (* the inner orbit *)
          ("a1", Some (o_a inner)); ("e1", Some (o_e inner)); ("i1", Some (o_inc inner));
          ("Om1", Some (o_Omega inner)); ("pom1", Some (o_pomega inner));
          ("f1", Some (o_f inner));
          (* the outer orbit *)
          ("a2", Some (o_a outer)); ("e2", Some (o_e outer)); ("i2", Some (o_inc outer));
          ("Om2", Some (o_Omega outer)); ("pom2", Some (o_pomega outer)) ]
  | _, _, _ => None
  end.

(** The record for state [s]: one value per column of the header, in the
    header's order. *)
Definition described_record (s : reb_simulation) : option (list R) :=
  mapM (column s) (fields header).

(** ** The vocabulary of the statements *)

(** The actions of lines 23 to 88, in order. *)
Definition setup_events : list event :=
  [ Ev_store_dt (M_PI * 1e-1);
    Ev_store_integrator REB_INTEGRATOR_IAS15;
    Ev_store_heartbeat CB_heartbeat;
    Ev_reb_add star;
    Ev_reb_add_fmt "m r a e omega" [planet_m; planet_r; planet_a; planet_e; planet_omega];
    Ev_reb_add_fmt "m a e inc" [perturber_mass; perturber_a; perturber_e; perturber_inc];
    Ev_rebx_attach;
    Ev_rebx_load_force effect;
    Ev_rebx_add_force effect;
    Ev_rebx_set_param_double 0 "k2" solar_k2;
    Ev_rebx_set_param_double 0 "moi" (0.08 * m star * r star * r star);
    Ev_rebx_set_param_double 0 "spin_sx" (solar_spin * 0.0);
    Ev_rebx_set_param_double 0 "spin_sy" (solar_spin * 0.0);
    Ev_rebx_set_param_double 0 "spin_sz" (solar_spin * 1.0);
    Ev_rebx_set_time_lag 0 solar_tau;
    Ev_rebx_set_param_double 1 "k2" planet_k2;
    Ev_rebx_set_param_double 1 "moi" (0.25 * planet_m * planet_r * planet_r);
    Ev_rebx_set_param_double 1 "spin_sx" (spin_p * sin theta_1 * sin phi_1);
    Ev_rebx_set_param_double 1 "spin_sy" (spin_p * sin theta_1 * cos phi_1);
    Ev_rebx_set_param_double 1 "spin_sz" (spin_p * cos theta_1);
    Ev_rebx_set_time_lag 1 planet_tau;
    Ev_reb_move_to_com;
    Ev_align_simulation;
    Ev_rebx_spin_initialize_ode effect;
    Ev_fopen "11_28_HD80860.txt" "w";
    Ev_fprintf header [] ].

(** The library calls between the last parameter store and the loop. *)
Definition finish_setup (s : reb_simulation) : reb_simulation :=
  rebx_spin_initialize_ode L
    (align_simulation L (reb_move_to_com L (rebx_set_time_lag L s 1 planet_tau)))
    effect.

(** The six spin entries the loop reads are there. *)
Definition spins_present (s : reb_simulation) : Prop :=
  forall i key,
    i = 0%nat \/ i = 1%nat ->
    key = "spin_sx"%string \/ key = "spin_sy"%string \/ key = "spin_sz"%string ->
    is_Some (param s i key).

(** What the loop body needs of the state it starts in. *)
Definition ready (s : reb_simulation) : Prop :=
  has_particle s 2 /\ spins_present s.

(** The six lookups of lines 95 to 101, with what they return in [s]. *)
Definition iteration_lookups (s : reb_simulation) : list (nat * string * option R) :=
  [ (0%nat, "spin_sx"%string, param s 0 "spin_sx");
    (0%nat, "spin_sy"%string, param s 0 "spin_sy");
    (0%nat, "spin_sz"%string, param s 0 "spin_sz");
    (1%nat, "spin_sx"%string, param s 1 "spin_sx");
    (1%nat, "spin_sy"%string, param s 1 "spin_sy");
    (1%nat, "spin_sz"%string, param s 1 "spin_sz") ].

(** A data record is well formed when it is written with [row_format] and
    has one argument per column of the header. *)
Definition well_formed_record (rec : string * list R) : Prop :=
  rec.1 = row_format /\ length rec.2 = length (fields header).

(** A lookup of one of the six spin entries that found its entry. *)
Definition spin_lookup_found (l : nat * string * option R) : Prop :=
  (l.1.1 = 0%nat \/ l.1.1 = 1%nat) /\
  (l.1.2 = "spin_sx"%string \/ l.1.2 = "spin_sy"%string \/ l.1.2 = "spin_sz"%string) /\
  is_Some l.2.

(** What [k] iterations of the loop have done, [evs] being their actions,
    [s0] the simulation the loop was entered with and [w] the state
    reached: [k] rounds of six successful lookups, one well-formed record
    and one [reb_integrate] call; if the library keeps the clock contract,
    the clock and the requested times are on the multiples of 100 * 2 pi. *)
Record loop_facts (s0 : reb_simulation) (k : nat) (w : world) (evs : list event) : Prop :=
  mk_loop_facts {
    lf_header : header_lines evs = [];
    lf_events : Forall loop_event evs;
    lf_records : length (data_records evs) = k;
    lf_well_formed : Forall well_formed_record (data_records evs);
    lf_lookups : length (lookups evs) = (6 * k)%nat;
    lf_found : Forall spin_lookup_found (lookups evs);
    lf_targets : length (integrate_targets evs) = k;
    lf_clock :
      clock_contract ->
      t (sim w) = t s0 + INR k * (100 * 2 * M_PI) /\
      integrate_targets evs =
        map (fun j => t s0 + INR (S j) * (100 * 2 * M_PI)) (seq 0 k)
  }.

(** The invariant of the loop after [k] iterations, for a loop entered with
    simulation [s0] and trace [T0]. *)
Definition loop_inv (s0 : reb_simulation) (T0 : list event) (k : nat) (w : world) : Prop :=
  ready (sim w) /\
  exists evs, trace w = T0 ++ evs /\ loop_facts s0 k w evs.

End Driver.

(** ** A reference library

    The smallest library that meets the contracts: particles are stored as
    given, nothing moves, and [reb_integrate] only sets the clock. *)

Definition set_t {lib_state : Type} (s : @reb_simulation lib_state) (v : R)
  : @reb_simulation lib_state :=
  mk_sim v (dt s) (G s) (integrator s) (heartbeat_cb s) (particles s) (internal s).

Definition ref_library : @library unit :=
  {| reb_create_simulation := mk_sim 0 0.001 1 REB_INTEGRATOR_NONE CB_none [] tt;
     reb_add := fun s p => set_particles s (particles s ++ [p]);
     reb_add_fmt := fun s fmt args =>
       set_particles s (particles s ++ [set_m particle_zero (hd 0 args)]);
     reb_move_to_com := fun s => s;
     reb_tools_particle_to_orbit := fun _ _ _ => mk_orbit 0 0 0 0 0 0;
     reb_get_com_of_pair := fun p _ => p;
     reb_integrate := fun s target => set_t s target;
     reb_output_check := fun s _ => (false, s);
     reb_free_simulation := fun s => s;
     rebx_attach := fun s => s;
     rebx_load_force := fun s _ => s;
     rebx_add_force := fun s _ => s;
     rebx_set_time_lag := fun s _ _ => s;
     align_simulation := fun s => s;
     rebx_spin_initialize_ode := fun s _ => s;
     rebx_free := fun s => s |}.

(** * Proofs *)

Section Proofs.

Context {lib_state : Type}.
Variable L : @library lib_state.

Abbreviation simulation := (@reb_simulation lib_state).
Abbreviation state := (@world lib_state).

(** ** The parameter store *)

Lemma keeps_store_refl (s : simulation) : keeps_store s s.
Proof. split; auto. Qed.

Lemma keeps_store_trans (s1 s2 s3 : simulation) :
  keeps_store s1 s2 -> keeps_store s2 s3 -> keeps_store s1 s3.
Proof. intros [A1 B1] [A2 B2]. split; auto. Qed.

Lemma keeps_store_same_particles (s s' : simulation) :
  particles s' = particles s -> keeps_store s s'.
Proof.
  intros E. unfold keeps_store, has_particle, param. rewrite E. auto.
Qed.

Lemma keeps_store_app (s s' : simulation) (l : list reb_particle) :
  particles s' = particles s ++ l -> keeps_store s s'.
Proof.
  intros E. unfold keeps_store, has_particle, param. rewrite E.
  split.
  - intros i [p Hp]. exists p. by apply lookup_app_l_Some.
  - intros i key. destruct (particles s !! i) as [p|] eqn:Hp.
    + by rewrite (lookup_app_l_Some _ _ _ _ Hp).
    + intros [? ?]. discriminate.
Qed.

Lemma has_particle_lt (s : simulation) (i : nat) :
  has_particle s i <-> (i < length (particles s))%nat.
Proof. unfold has_particle. apply lookup_lt_is_Some. Qed.

Lemma param_has_particle (s : simulation) (i : nat) (key : string) :
  is_Some (param s i key) -> has_particle s i.
Proof.
  unfold param, has_particle. destruct (particles s !! i); [eauto|].
  intros [? ?]; discriminate.
Qed.

(** A store succeeds on an existing particle, is read back, and leaves
    every other entry as it was. *)
Lemma rebx_set_param_double_spec (s : simulation) (i : nat) (key : string) (v : R) :
  has_particle s i ->
  exists s',
    rebx_set_param_double s i key v = Some s' /\
    t s' = t s /\
    length (particles s') = length (particles s) /\
    param s' i key = Some v /\
    (forall j key', j <> i \/ key' <> key -> param s' j key' = param s j key').
Proof.
  intros [p Hp]. unfold rebx_set_param_double. rewrite Hp.
  eexists. split; [reflexivity|]. cbn.
  assert (Hi : (i < length (particles s))%nat) by (eapply lookup_lt_Some; eauto).
  repeat split.
  - apply length_insert.
  - unfold param. cbn. rewrite list_lookup_insert_eq by exact Hi. cbn.
    unfold rebx_get_param. apply lookup_insert_eq.
  - intros j key' Hne. unfold param. cbn.
    destruct (decide (j = i)) as [->|Hj].
    + rewrite list_lookup_insert_eq by exact Hi. rewrite Hp. cbn.
      unfold rebx_get_param. destruct Hne as [?|Hk]; [congruence|].
      apply lookup_insert_ne. congruence.
    + rewrite list_lookup_insert_ne by congruence. reflexivity.
Qed.

Lemma rebx_set_param_double_keeps (s s' : simulation) (i : nat) (key : string) (v : R) :
  rebx_set_param_double s i key v = Some s' -> keeps_store s s'.
Proof.
  intros E.
  assert (Hi : has_particle s i).
  { unfold rebx_set_param_double in E. unfold has_particle.
    destruct (particles s !! i); [eauto | discriminate]. }
  destruct (rebx_set_param_double_spec s i key v Hi) as (s2 & E2 & _ & Hlen & Hv & Hfr).
  rewrite E in E2. injection E2 as <-.
  split.
  - intros j. rewrite !has_particle_lt. lia.
  - intros j key' Hs.
    destruct (decide (j = i)) as [->|Hj]; [destruct (decide (key' = key)) as [->|Hk]|].
    + rewrite Hv. eauto.
    + rewrite Hfr by auto. exact Hs.
    + rewrite Hfr by auto. exact Hs.
Qed.

(** ** Running the monad *)

Lemma act_bind {B} (e : event) (f : simulation -> simulation) (k : unit -> M B) (w : state) :
  bind (act e f) k w = k tt (mk_world (f (sim w)) (trace w ++ [e])).
Proof. reflexivity. Qed.

Lemma emit_bind {B} (e : event) (k : unit -> M B) (w : state) :
  bind (emit e) k w = k tt (mk_world (sim w) (trace w ++ [e])).
Proof. reflexivity. Qed.

Lemma set_param_bind {B} (i : nat) (key : string) (v : R) (k : unit -> M B)
    (w : state) (s' : simulation) :
  rebx_set_param_double (sim w) i key v = Some s' ->
  bind (set_param i key v) k w =
  k tt (mk_world s' (trace w ++ [Ev_rebx_set_param_double i key v])).
Proof.
  intros E. unfold set_param, bind, emit, get_sim, put_sim, of_option. cbn.
  rewrite E. reflexivity.
Qed.

Lemma get_param_bind {B} (i : nat) (key : string) (k : option R -> M B)
    (s : simulation) (tr : list event) (p : reb_particle) :
  particles s !! i = Some p ->
  bind (get_param i key) k (mk_world s tr) =
  k (ap p !! key) (mk_world s (tr ++ [Ev_rebx_get_param i key (ap p !! key)])).
Proof.
  intros E. unfold get_param, load_particle, bind, emit, get_sim, of_option. cbn.
  rewrite E. reflexivity.
Qed.

Lemma load_particle_bind {B} (i : nat) (k : reb_particle -> M B)
    (s : simulation) (tr : list event) (p : reb_particle) :
  particles s !! i = Some p ->
  bind (load_particle i) k (mk_world s tr) = k p (mk_world s tr).
Proof.
  intros E. unfold load_particle, bind, get_sim, of_option. cbn.
  rewrite E. reflexivity.
Qed.

(** ** The setup phase *)

Lemma ready_keeps (s s' : simulation) :
  keeps_store s s' -> ready s -> ready s'.
Proof.
  intros [Hp Hk] [H2 Hs]. split; [auto|].
  intros i key Hi Hkey. apply Hk, Hs; assumption.
Qed.

Lemma keeps_store_length (s s' : simulation) (n : nat) :
  keeps_store s s' ->
  (n <= length (particles s))%nat -> (n <= length (particles s'))%nat.
Proof.
  intros [K _] H. destruct n as [|n]; [lia|].
  apply (has_particle_lt s' n), K, has_particle_lt. lia.
Qed.

Lemma reb_add_length (HC : store_contract L) (n : nat) (s : simulation) (p : reb_particle) :
  (n <= length (particles s))%nat -> (S n <= length (particles (reb_add L s p)))%nat.
Proof. intros H. rewrite (reb_add_appends _ HC), length_app. cbn. lia. Qed.

Lemma reb_add_fmt_length (HC : store_contract L) (n : nat) (s : simulation)
    (fmt : string) (args : list R) :
  (n <= length (particles s))%nat ->
  (S n <= length (particles (reb_add_fmt L s fmt args)))%nat.
Proof.
  intros H. destruct (reb_add_fmt_appends _ HC s fmt args) as [p ->].
  rewrite length_app. cbn. lia.
Qed.

Ltac differs := first [ left; discriminate | right; discriminate ].

(** One parameter store of the setup: run it, name the new simulation and
    carry the facts about the entries over to it. *)
Ltac store_step s' :=
  match goal with
  | |- context [bind (set_param ?i ?key ?v) _ (mk_world ?s _)] =>
      let E := fresh "E" in
      let Ht := fresh "Ht" in
      let Hlen := fresh "Hlen" in
      let Hv := fresh "Hv" in
      let Hfr := fresh "Hfr" in
      destruct (rebx_set_param_double_spec s i key v) as (s' & E & Ht & Hlen & Hv & Hfr);
      [ apply has_particle_lt; lia
      | rewrite (set_param_bind i key v _ (mk_world s _) s' E);
        cbv beta; cbn [sim trace];
        repeat match goal with
               | H : param s ?j ?k' = Some ?u |- _ =>
                   rewrite <- (Hfr j k') in H by differs
               | H : is_Some (param s ?j ?k') |- _ =>
                   rewrite <- (Hfr j k') in H by differs
               end;
        clear E Ht Hfr ]
  end.

(** The setup phase terminates: it performs [setup_events] and hands over
    a simulation in which the entries stored for the planet hold the values
    of lines 78 to 80, finished by the four library calls of lines 81 to
    85. *)
Lemma main_setup_run (HC : store_contract L) (w0 : state) :
  exists s_a,
    main_setup L w0 =
      Some (tt, mk_world (finish_setup L s_a) (trace w0 ++ setup_events)) /\
    ready s_a /\
    param s_a 1 "spin_sx" = Some (spin_p * sin theta_1 * sin phi_1) /\
    param s_a 1 "spin_sy" = Some (spin_p * sin theta_1 * cos phi_1) /\
    param s_a 1 "spin_sz" = Some (spin_p * cos theta_1).
Proof.
  destruct w0 as [s0 tr0]. unfold main_setup.
  do 9 (rewrite act_bind; cbv beta; cbn [sim trace]).
  match goal with
  | |- context [bind (set_param _ _ _) _ (mk_world ?s _)] => set (s1 := s)
  end.
  assert (H3 : (3 <= length (particles s1))%nat).
  { subst s1.
    eapply keeps_store_length; [apply (rebx_add_force_keeps _ HC)|].
    eapply keeps_store_length; [apply (rebx_load_force_keeps _ HC)|].
    eapply keeps_store_length; [apply (rebx_attach_keeps _ HC)|].
    apply (reb_add_fmt_length HC 2), (reb_add_fmt_length HC 1), (reb_add_length HC 0).
    lia. }
  clearbody s1.
  store_step s2. store_step s3. store_step s4. store_step s5. store_step s6.
  rewrite act_bind; cbv beta; cbn [sim trace].
  assert (K : keeps_store s6 (rebx_set_time_lag L s6 0 solar_tau))
    by apply (rebx_set_time_lag_keeps _ HC).
  set (s7 := rebx_set_time_lag L s6 0 solar_tau) in *.
  assert (H3' : (3 <= length (particles s7))%nat)
    by (eapply keeps_store_length; [exact K | lia]).
  assert (Sx : is_Some (param s7 0 "spin_sx")) by (apply K; rewrite Hv1; eauto).
  assert (Sy : is_Some (param s7 0 "spin_sy")) by (apply K; rewrite Hv2; eauto).
  assert (Sz : is_Some (param s7 0 "spin_sz")) by (apply K; rewrite Hv3; eauto).
  clearbody s7.
  store_step s8. store_step s9. store_step s10. store_step s11. store_step s12.
  exists s12. split; [|split; [|auto]].
  - do 4 (rewrite act_bind; cbv beta; cbn [sim trace]).
    rewrite emit_bind. unfold emit. cbn [sim trace]. unfold finish_setup, setup_events.
    rewrite <- !app_assoc. reflexivity.
  - split; [apply has_particle_lt; lia|].
    intros i key [->| ->] [->|[->| ->]]; try assumption;
      match goal with H : param s12 _ _ = Some _ |- _ => rewrite H; eauto end.
Qed.

Lemma finish_setup_keeps (HC : store_contract L) (s : simulation) :
  keeps_store s (finish_setup L s).
Proof.
  unfold finish_setup.
  eapply keeps_store_trans; [apply (rebx_set_time_lag_keeps _ HC)|].
  eapply keeps_store_trans; [apply (reb_move_to_com_keeps _ HC)|].
  eapply keeps_store_trans; [apply (align_simulation_keeps _ HC)|].
  apply (rebx_spin_initialize_ode_keeps _ HC).
Qed.

(** ** One iteration of the loop *)

Lemma get_sim_bind {B} (k : simulation -> M B) (w : state) :
  bind get_sim k w = k (sim w) w.
Proof. reflexivity. Qed.

Lemma deref_bind {B} (v : R) (k : R -> M B) (w : state) :
  bind (deref (Some v)) k w = k v w.
Proof. reflexivity. Qed.

Lemma ret_bind {A B} (a : A) (k : A -> M B) (w : state) :
  bind (ret a) k w = k a w.
Proof. reflexivity. Qed.

Lemma param_lookup (s : simulation) (i : nat) (key : string) (p : reb_particle) :
  particles s !! i = Some p -> param s i key = ap p !! key.
Proof. intros E. unfold param. rewrite E. reflexivity. Qed.

(** In a ready state an iteration runs to its end.  It looks the six spin
    entries up, writes one data record, the one the design document
    describes, and asks for the clock to be advanced by 100 * 2 pi. *)
Lemma main_loop_body_run (i : Z) (w : state) :
  ready (sim w) ->
  exists evs args,
    main_loop_body L i w =
      Some (tt, mk_world (reb_integrate L (sim w) (t (sim w) + 100 * 2 * M_PI))
                         (trace w ++ evs)) /\
    integrate_targets evs = [t (sim w) + 100 * 2 * M_PI] /\
    data_records evs = [(row_format, args)] /\
    described_record L (sim w) = Some args /\
    header_lines evs = [] /\
    Forall loop_event evs /\
    lookups evs = iteration_lookups (sim w).
Proof.
  destruct w as [s tr]. cbn [sim trace]. intros [H2 Hs].
  destruct H2 as [pc Hpc].
  destruct (Hs 0%nat "spin_sx"%string) as [ax Hax]; [auto | auto |].
  destruct (Hs 0%nat "spin_sy"%string) as [ay Hay]; [auto | auto |].
  destruct (Hs 0%nat "spin_sz"%string) as [az Haz]; [auto | auto |].
  destruct (Hs 1%nat "spin_sx"%string) as [bx Hbx]; [auto | auto |].
  destruct (Hs 1%nat "spin_sy"%string) as [byy Hby]; [auto | auto |].
  destruct (Hs 1%nat "spin_sz"%string) as [bz Hbz]; [auto | auto |].
  destruct (particles s !! 0%nat) as [pa|] eqn:Hpa;
    [| unfold param in Hax; rewrite Hpa in Hax; discriminate].
  destruct (particles s !! 1%nat) as [pb|] eqn:Hpb;
    [| unfold param in Hbx; rewrite Hpb in Hbx; discriminate].
  assert (Dsc : described_record L s =
                Some [t s / (2 * M_PI); x pa; y pa; z pa; vx pa; vy pa; vz pa;
                      ax; ay; az;
                      o_a (reb_tools_particle_to_orbit L (G s) pb pa);
                      o_inc (reb_tools_particle_to_orbit L (G s) pb pa);
                      o_e (reb_tools_particle_to_orbit L (G s) pb pa);
                      bx; byy; bz; sqrt (bx * bx + byy * byy + bz * bz);
                      o_pomega (reb_tools_particle_to_orbit L (G s) pb pa);
                      o_Omega (reb_tools_particle_to_orbit L (G s) pb pa);
                      o_f (reb_tools_particle_to_orbit L (G s) pb pa);
                      x pb; y pb; z pb; vx pb; vy pb; vz pb;
                      o_a (reb_tools_particle_to_orbit L (G s) pc
                             (reb_get_com_of_pair L pa pb));
                      o_inc (reb_tools_particle_to_orbit L (G s) pc
                               (reb_get_com_of_pair L pa pb));
                      o_e (reb_tools_particle_to_orbit L (G s) pc
                             (reb_get_com_of_pair L pa pb));
                      o_Omega (reb_tools_particle_to_orbit L (G s) pc
                                 (reb_get_com_of_pair L pa pb));
                      o_pomega (reb_tools_particle_to_orbit L (G s) pc
                                  (reb_get_com_of_pair L pa pb))]).
  { unfold described_record.
    let l := eval vm_compute in (fields header) in change (fields header) with l.
    unfold column, spin_norm2. rewrite Hpa, Hpb, Hpc, Hax, Hay, Haz, Hbx, Hby, Hbz.
    reflexivity. }
  unfold iteration_lookups. rewrite Hax, Hay, Haz, Hbx, Hby, Hbz.
  rewrite (param_lookup s 0 "spin_sx" pa Hpa) in Hax.
  rewrite (param_lookup s 0 "spin_sy" pa Hpa) in Hay.
  rewrite (param_lookup s 0 "spin_sz" pa Hpa) in Haz.
  rewrite (param_lookup s 1 "spin_sx" pb Hpb) in Hbx.
  rewrite (param_lookup s 1 "spin_sy" pb Hpb) in Hby.
  rewrite (param_lookup s 1 "spin_sz" pb Hpb) in Hbz.
  unfold main_loop_body.
  rewrite (get_param_bind 0 "spin_sx" _ s _ pa Hpa), Hax; cbv beta; cbn [sim trace].
  rewrite (get_param_bind 0 "spin_sy" _ s _ pa Hpa), Hay; cbv beta; cbn [sim trace].
  rewrite (get_param_bind 0 "spin_sz" _ s _ pa Hpa), Haz; cbv beta; cbn [sim trace].
  rewrite (get_param_bind 1 "spin_sx" _ s _ pb Hpb), Hbx; cbv beta; cbn [sim trace].
  rewrite (get_param_bind 1 "spin_sy" _ s _ pb Hpb), Hby; cbv beta; cbn [sim trace].
  rewrite (get_param_bind 1 "spin_sz" _ s _ pb Hpb), Hbz; cbv beta; cbn [sim trace].
  rewrite get_sim_bind; cbv beta; cbn [sim trace].
  rewrite (load_particle_bind 1 _ s _ pb Hpb); cbv beta.
  rewrite (load_particle_bind 0 _ s _ pa Hpa); cbv beta.
  rewrite !deref_bind; cbv beta.
  rewrite (load_particle_bind 2 _ s _ pc Hpc); cbv beta.
  cbn [v_x v_y v_z].
  destruct (Z.rem i 10000 =? 0)%Z.
  - rewrite emit_bind; cbv beta; cbn [sim trace].
    rewrite !deref_bind; cbv beta.
    rewrite emit_bind; cbv beta; cbn [sim trace].
    rewrite get_sim_bind; cbv beta; cbn [sim trace].
    unfold act. rewrite emit_bind; cbv beta; cbn [sim trace].
    rewrite get_sim_bind; cbv beta; cbn [sim trace]. unfold put_sim; cbn [sim trace].
    rewrite <- !app_assoc. cbn [app].
    eexists. eexists. split; [reflexivity|].
    split; [reflexivity|]. split; [reflexivity|]. split; [exact Dsc|].
    split; [reflexivity|]. split; [|reflexivity].
    repeat (apply List.Forall_cons; [exact I|]). apply List.Forall_nil.
  - rewrite ret_bind; cbv beta; cbn [sim trace].
    rewrite !deref_bind; cbv beta.
    rewrite emit_bind; cbv beta; cbn [sim trace].
    rewrite get_sim_bind; cbv beta; cbn [sim trace].
    unfold act. rewrite emit_bind; cbv beta; cbn [sim trace].
    rewrite get_sim_bind; cbv beta; cbn [sim trace]. unfold put_sim; cbn [sim trace].
    rewrite <- !app_assoc. cbn [app].
    eexists. eexists. split; [reflexivity|].
    split; [reflexivity|]. split; [reflexivity|]. split; [exact Dsc|].
    split; [reflexivity|]. split; [|reflexivity].
    repeat (apply List.Forall_cons; [exact I|]). apply List.Forall_nil.
Qed.

(** ** The loop *)

(** The rule of the counted loop: an invariant indexed by the number of
    iterations done that every iteration re-establishes holds at the end,
    and the loop runs to its end. *)
Lemma main_loop_rule (I : nat -> state -> Prop) :
  (forall k i w, I k w -> exists w', main_loop_body L i w = Some (tt, w') /\ I (S k) w') ->
  forall n k i w, I k w ->
    exists w', main_loop L n i w = Some (tt, w') /\ I (n + k)%nat w'.
Proof.
  intros Hstep. induction n as [|n IH]; intros k i w Hw.
  - exists w. split; [reflexivity | exact Hw].
  - destruct (Hstep k i w Hw) as (w1 & E1 & H1).
    destruct (IH (S k) (i + 1)%Z w1 H1) as (w2 & E2 & H2).
    exists w2. split.
    + cbn [main_loop]. unfold bind. rewrite E1. exact E2.
    + replace (S n + k)%nat with (n + S k)%nat by lia. exact H2.
Qed.

(** A loop of [n1 + n2] iterations is a loop of [n1] iterations followed
    by a loop of [n2] iterations that starts at counter [i + n1]. *)
Lemma main_loop_add (n1 n2 : nat) (i : Z) (w : state) :
  main_loop L (n1 + n2) i w =
  bind (main_loop L n1 i) (fun _ => main_loop L n2 (i + Z.of_nat n1)%Z) w.
Proof.
  revert i w. induction n1 as [|n1 IH]; intros i w.
  - cbn. unfold bind, ret. by rewrite Z.add_0_r.
  - cbn [Nat.add main_loop]. unfold bind.
    destruct (main_loop_body L i w) as [[[] w']|]; [|reflexivity].
    rewrite IH. unfold bind.
    replace (i + 1 + Z.of_nat n1)%Z with (i + Z.of_nat (S n1))%Z by lia.
    reflexivity.
Qed.

Lemma loop_inv_start (s0 : simulation) (T0 : list event) :
  ready s0 -> loop_inv L s0 T0 0 (mk_world s0 T0).
Proof.
  intros Hr. split; [exact Hr|]. exists []. cbn [trace sim].
  rewrite app_nil_r. split; [reflexivity|].
  constructor; try reflexivity; try apply List.Forall_nil.
  intros _. cbn. split; [lra | reflexivity].
Qed.

Lemma iteration_lookups_found (s : simulation) :
  ready s -> Forall spin_lookup_found (iteration_lookups s).
Proof.
  intros [_ Hs]. unfold iteration_lookups.
  repeat (apply List.Forall_cons;
          [ unfold spin_lookup_found; cbn [fst snd];
            split; [auto | split; [auto | apply Hs; auto]] | ]).
  apply List.Forall_nil.
Qed.

Lemma described_record_length (s : simulation) (args : list R) :
  described_record L s = Some args -> length args = length (fields header).
Proof.
  unfold described_record. intros H. symmetry. exact (length_mapM _ _ _ H).
Qed.

Lemma loop_inv_step (HC : store_contract L) (s0 : simulation) (T0 : list event)
    (k : nat) (i : Z) (w : state) :
  loop_inv L s0 T0 k w ->
  exists w', main_loop_body L i w = Some (tt, w') /\ loop_inv L s0 T0 (S k) w'.
Proof.
  intros (Hr & evs & Htr & [Hh Hev Hd Hwf Hl Hf Hi Hclock]).
  destruct (main_loop_body_run i w Hr)
    as (evs' & args & E & Ei & Ed & Edesc & Eh & Eev & El).
  eexists. split; [exact E|].
  split.
  { cbn [sim]. eapply ready_keeps; [apply (reb_integrate_keeps _ HC) | exact Hr]. }
  exists (evs ++ evs'). cbn [sim trace].
  split; [by rewrite Htr, app_assoc|].
  unfold header_lines, data_records, lookups, integrate_targets in *.
  constructor;
    unfold header_lines, data_records, lookups, integrate_targets;
    rewrite ?omap_app, ?Hh, ?Eh, ?Ed, ?El, ?Ei, ?length_app, ?Hd, ?Hl, ?Hi.
  - reflexivity.
  - apply Forall_app; split; assumption.
  - cbn [length]; lia.
  - apply Forall_app. split; [exact Hwf|].
    apply List.Forall_cons; [|apply List.Forall_nil].
    split; [reflexivity|]. exact (described_record_length _ _ Edesc).
  - unfold iteration_lookups; cbn [length]; lia.
  - apply Forall_app. split; [exact Hf|]. by apply iteration_lookups_found.
  - cbn [length]; lia.
  - intros Hc. destruct (Hclock Hc) as [Ht Hts]. split.
    + cbn [sim]. rewrite Hc, Ht, S_INR. lra.
    + rewrite Hts, seq_S, map_app. cbn [map Nat.add]. rewrite Ht, S_INR.
      f_equal. f_equal. lra.
Qed.

Lemma main_loop_run (HC : store_contract L) (s0 : simulation) (T0 : list event)
    (n : nat) (i : Z) :
  ready s0 ->
  exists w', main_loop L n i (mk_world s0 T0) = Some (tt, w') /\ loop_inv L s0 T0 n w'.
Proof.
  intros Hr.
  destruct (main_loop_rule (loop_inv L s0 T0) (fun k j w => loop_inv_step HC s0 T0 k j w)
              n 0%nat i (mk_world s0 T0) (loop_inv_start s0 T0 Hr)) as (w' & E & H).
  exists w'. split; [exact E|]. by rewrite Nat.add_0_r in H.
Qed.

(** ** The whole run *)

(** The setup phase terminates in a ready state, having performed
    [setup_events] after the creation of the simulation. *)
Lemma loop_entry (HC : store_contract L) :
  exists w_S,
    main_setup L (start L) = Some (tt, w_S) /\
    ready (sim w_S) /\
    trace w_S = Ev_reb_create_simulation :: setup_events.
Proof.
  destruct (main_setup_run HC (start L)) as (s_a & E & Hr & _).
  eexists. split; [exact E|]. split; [|reflexivity].
  cbn [sim]. eapply ready_keeps; [apply (finish_setup_keeps HC) | exact Hr].
Qed.

Lemma run_iterations_from (w_S : state) (k : nat) :
  main_setup L (start L) = Some (tt, w_S) ->
  run_iterations L k = main_loop L k 0 w_S.
Proof. intros E. unfold run_iterations, bind. rewrite E. reflexivity. Qed.

Lemma main_from (w_S w_N : state) :
  main_setup L (start L) = Some (tt, w_S) ->
  main_loop L (Z.to_nat N_ITER) 0 w_S = Some (tt, w_N) ->
  main L =
    Some (tt, mk_world (reb_free_simulation L (rebx_free L (sim w_N)))
                       (trace w_N ++ [Ev_rebx_free; Ev_reb_free_simulation])).
Proof.
  intros E1 E2. unfold main, bind. rewrite E1, E2.
  unfold main_cleanup, act, bind, emit, get_sim, put_sim. cbn [sim trace].
  by rewrite <- app_assoc.
Qed.

(** The run reaches the start of every iteration, and the loop invariant
    holds there. *)
Lemma run_iterations_run (HC : store_contract L) (w_S : state) (k : nat) :
  main_setup L (start L) = Some (tt, w_S) ->
  ready (sim w_S) ->
  exists w_k,
    run_iterations L k = Some (tt, w_k) /\
    loop_inv L (sim w_S) (trace w_S) k w_k.
Proof.
  intros E Hr. rewrite (run_iterations_from w_S k E).
  destruct w_S as [s0 T0]. apply (main_loop_run HC); exact Hr.
Qed.

(** The program terminates.  Its trace is the creation of the simulation,
    the setup, the actions [evs] of the loop and the two calls that free
    the objects. *)
Lemma main_run (HC : store_contract L) :
  exists w_S w_N evs,
    main_setup L (start L) = Some (tt, w_S) /\
    ready (sim w_S) /\
    trace w_S = Ev_reb_create_simulation :: setup_events /\
    run_iterations L (Z.to_nat N_ITER) = Some (tt, w_N) /\
    trace w_N = (Ev_reb_create_simulation :: setup_events) ++ evs /\
    loop_facts L (sim w_S) (Z.to_nat N_ITER) w_N evs /\
    main L =
      Some (tt, mk_world (reb_free_simulation L (rebx_free L (sim w_N)))
                  ((Ev_reb_create_simulation :: setup_events) ++ evs ++
                   [Ev_rebx_free; Ev_reb_free_simulation])).
Proof.
  destruct (loop_entry HC) as (w_S & E & Hr & Htr).
  destruct (run_iterations_run HC w_S (Z.to_nat N_ITER) E Hr)
    as (w_N & EN & _ & evs & HtrN & HF).
  rewrite Htr in HtrN.
  exists w_S, w_N, evs. repeat (split; [assumption|]).
  rewrite (run_iterations_from w_S _ E) in EN.
  rewrite (main_from w_S w_N E EN), HtrN, <- app_assoc. reflexivity.
Qed.

Lemma setup_events_no_integration :
  integrate_targets (Ev_reb_create_simulation :: setup_events) = [].
Proof. reflexivity. Qed.

(** What happens in a prefix of the trace that holds no [reb_integrate] call
    happens before the simulation time is ever advanced. *)
Lemma before_integration_prefix (e : event) (T rest : list event) :
  In e T -> integrate_targets T = [] -> before_integration e (T ++ rest).
Proof.
  intros Hin Hno. destruct (in_split _ _ Hin) as (l1 & l2 & ->).
  exists l1, (l2 ++ rest). split.
  - by rewrite <- app_assoc.
  - unfold integrate_targets in *. rewrite omap_app in Hno.
    by apply app_eq_nil in Hno as [? _].
Qed.

Lemma before_integration_setup (e : event) (rest : list event) :
  In e setup_events ->
  before_integration e ((Ev_reb_create_simulation :: setup_events) ++ rest).
Proof.
  intros Hin. apply before_integration_prefix.
  - right. exact Hin.
  - exact setup_events_no_integration.
Qed.

(** A reading of the trace that ignores the actions of the loop finds
    nothing in them. *)
Lemma omap_loop_events {A} (f : event -> option A) (evs : list event) :
  (forall e, loop_event e -> f e = None) ->
  Forall loop_event evs -> omap f evs = [].
Proof.
  intros Hf. induction 1 as [|e evs He _ IH]; [reflexivity|].
  cbn. rewrite (Hf e He). exact IH.
Qed.

Lemma setup_reading {A} (f : event -> option A) (evs : list event) :
  (forall e, loop_event e -> f e = None) ->
  Forall loop_event evs ->
  omap f ((Ev_reb_create_simulation :: setup_events) ++ evs ++
          [Ev_rebx_free; Ev_reb_free_simulation]) =
  omap f (Ev_reb_create_simulation :: setup_events) ++
  omap f [Ev_rebx_free; Ev_reb_free_simulation].
Proof.
  intros Hf Hevs. rewrite !omap_app. by rewrite (omap_loop_events f evs Hf Hevs).
Qed.

Lemma N_ITER_pos : (0 < Z.to_nat N_ITER)%nat.
Proof. unfold N_ITER. lia. Qed.

Lemma N_ITER_INR : INR (Z.to_nat N_ITER) = 1000000.
Proof. rewrite INR_IZR_INZ, Z2Nat.id by (unfold N_ITER; lia). reflexivity. Qed.

Local Opaque N_ITER.

(** The program calls [reb_integrate]. *)
Lemma main_integrates (evs : list event) (k : nat) :
  (0 < k)%nat ->
  length (integrate_targets evs) = k ->
  integrate_targets ((Ev_reb_create_simulation :: setup_events) ++ evs ++
                     [Ev_rebx_free; Ev_reb_free_simulation]) <> [].
Proof.
  intros Hk Hlen. unfold integrate_targets in *. rewrite !omap_app.
  change (omap integrate_target (Ev_reb_create_simulation :: setup_events)) with (@nil R).
  destruct (omap integrate_target evs); [cbn in Hlen; lia | discriminate].
Qed.

Ltac in_setup := unfold setup_events; cbn [In]; repeat first [left; reflexivity | right].

(** ** The claims about the setup *)


(** The masses the three particles are constructed with. *)
Lemma main_masses_passed (HC : store_contract L) :
  exists w,
    main L = Some (tt, w) /\
    masses_passed (trace w) = [m star; planet_m; perturber_mass].
Proof.
  destruct (main_run HC) as (w_S & w_N & evs & _ & _ & _ & _ & _ & HF & Emain).
  eexists. split; [exact Emain|]. cbn [trace].
  unfold masses_passed.
  rewrite setup_reading; [reflexivity | | exact (lf_events _ _ _ _ _ HF)].
  intros [] He; try reflexivity; destruct He.
Qed.

Lemma planet_m_pos : 0 < planet_m.
Proof. unfold planet_m. lra. Qed.

(** C3: the code departs from its own comment.  Line 34 calls the planet
    a zero mass test particle, but the masses passed at construction are, in
    order, 1.1 for the star, 7.8 * 9.55e-4 for the planet and 1.1 for the
    perturber, and the planet's mass is positive. *)
Theorem planet_mass_passed (HC : store_contract L) :
  exists w,
    main L = Some (tt, w) /\
    masses_passed (trace w) = [1.1; 7.8 * 9.55e-4; 1.1] /\
    masses_passed (trace w) !! 1%nat = Some planet_m /\
    0 < planet_m.
Proof.
  destruct (main_masses_passed HC) as (w & E & Hm).
  exists w. split; [exact E|]. rewrite Hm.
  split; [reflexivity|]. split; [reflexivity | exact planet_m_pos].
Qed.

(** C4: the program terminates and calls [reb_integrate]; before the
    first such call it has stored the three spin components of the star
    (particle 0) and of the planet (particle 1), which covers every entry
    the loop looks up, and it has initialized the spin ODE. *)
Theorem spin_state_initialized (HC : store_contract L) :
  exists w,
    main L = Some (tt, w) /\
    integrate_targets (trace w) <> [] /\
    (forall i key,
        i = 0%nat \/ i = 1%nat ->
        key = "spin_sx"%string \/ key = "spin_sy"%string \/ key = "spin_sz"%string ->
        exists v, before_integration (Ev_rebx_set_param_double i key v) (trace w)) /\
    (forall l, In l (lookups (trace w)) ->
        exists v, before_integration (Ev_rebx_set_param_double l.1.1 l.1.2 v) (trace w)) /\
    before_integration (Ev_rebx_spin_initialize_ode "spin") (trace w).
Proof.
  destruct (main_run HC) as (w_S & w_N & evs & _ & _ & _ & _ & _ & HF & Emain).
  eexists. split; [exact Emain|]. cbn [trace].
  split; [exact (main_integrates evs _ N_ITER_pos (lf_targets _ _ _ _ _ HF))|].
  assert (Hset : forall i key,
             i = 0%nat \/ i = 1%nat ->
             key = "spin_sx"%string \/ key = "spin_sy"%string \/ key = "spin_sz"%string ->
             exists v, before_integration (Ev_rebx_set_param_double i key v)
                         ((Ev_reb_create_simulation :: setup_events) ++ evs ++
                          [Ev_rebx_free; Ev_reb_free_simulation])).
  { intros i key [-> | ->] [-> | [-> | ->]]; eexists;
      apply before_integration_setup; in_setup. }
  split; [exact Hset|]. split.
  - intros l Hl. unfold lookups in Hl. rewrite !omap_app in Hl.
    change (omap lookup_result (Ev_reb_create_simulation :: setup_events))
      with (@nil (nat * string * option R)) in Hl.
    change (omap lookup_result [Ev_rebx_free; Ev_reb_free_simulation])
      with (@nil (nat * string * option R)) in Hl.
    rewrite app_nil_l, app_nil_r in Hl.
    pose proof (lf_found _ _ _ _ _ HF) as Hfound.
    rewrite List.Forall_forall in Hfound.
    destruct (Hfound l Hl) as (Hi & Hk & _). exact (Hset _ _ Hi Hk).
  - apply before_integration_setup. in_setup.
Qed.

(** ** The claims about the loop *)

(** Iteration [k] starts in the state the run has reached after [k]
    iterations and leads to the state after [k + 1] iterations. *)
Lemma run_iterations_S (k : nat) (w_k : state) :
  run_iterations L k = Some (tt, w_k) ->
  run_iterations L (S k) = main_loop_body L (Z.of_nat k) w_k.
Proof.
  unfold run_iterations, bind.
  destruct (main_setup L (start L)) as [[[] w_S]|]; [|discriminate].
  intros E. replace (S k) with (k + 1)%nat by lia.
  rewrite main_loop_add. unfold bind. rewrite E.
  cbn [main_loop]. unfold bind, ret. rewrite Z.add_0_l.
  destruct (main_loop_body L (Z.of_nat k) w_k) as [[[] w']|]; reflexivity.
Qed.

(** Every iteration starts in a ready state. *)
Lemma iteration_ready (HC : store_contract L) (k : nat) :
  exists w_S w_k,
    main_setup L (start L) = Some (tt, w_S) /\
    run_iterations L k = Some (tt, w_k) /\
    ready (sim w_k) /\
    (clock_contract L -> t (sim w_k) = t (sim w_S) + INR k * (100 * 2 * M_PI)).
Proof.
  destruct (loop_entry HC) as (w_S & E & Hr & _).
  destruct (run_iterations_run HC w_S k E Hr) as (w_k & Ek & Hrk & evs & _ & HF).
  exists w_S, w_k. split; [exact E|]. split; [exact Ek|]. split; [exact Hrk|].
  intros Hc. exact (proj1 (lf_clock _ _ _ _ _ HF Hc)).
Qed.

Lemma row_format_conversions : conversions row_format = length (fields header).
Proof. vm_compute. reflexivity. Qed.

Lemma header_fields_31 : length (fields header) = 31%nat.
Proof. vm_compute. reflexivity. Qed.

(** C5: every iteration of the loop runs to its end and writes exactly
    one data record and no header: the record the design document
    describes for the state the iteration starts in, its values in the
    order of the header's columns, one value per column and per conversion
    of the format.  The header has 31 columns.  The whole run writes the
    header once and one well-formed record per iteration. *)
Theorem one_record_per_iteration (HC : store_contract L) :
  (forall k, (k < Z.to_nat N_ITER)%nat ->
     exists w_k s' evs args,
       run_iterations L k = Some (tt, w_k) /\
       main_loop_body L (Z.of_nat k) w_k = Some (tt, mk_world s' (trace w_k ++ evs)) /\
       run_iterations L (S k) = Some (tt, mk_world s' (trace w_k ++ evs)) /\
       header_lines evs = [] /\
       data_records evs = [(row_format, args)] /\
       described_record L (sim w_k) = Some args /\
       length args = length (fields header) /\
       conversions row_format = length args) /\
  length (fields header) = 31%nat /\
  exists w,
    main L = Some (tt, w) /\
    header_lines (trace w) = [header] /\
    length (data_records (trace w)) = Z.to_nat N_ITER /\
    Forall well_formed_record (data_records (trace w)).
Proof.
  split; [|split; [exact header_fields_31|]].
  - intros k _.
    destruct (iteration_ready HC k) as (w_S & w_k & _ & Ek & Hr & _).
    destruct (main_loop_body_run (Z.of_nat k) w_k Hr)
      as (evs & args & E & _ & Ed & Edesc & Eh & _ & _).
    exists w_k. eexists. exists evs, args.
    split; [exact Ek|]. split; [exact E|].
    split; [rewrite (run_iterations_S k w_k Ek); exact E|].
    split; [exact Eh|]. split; [exact Ed|]. split; [exact Edesc|].
    pose proof (described_record_length _ _ Edesc) as Hlen.
    split; [exact Hlen|]. rewrite Hlen. exact row_format_conversions.
  - destruct (main_run HC) as (w_S & w_N & evs & _ & _ & _ & _ & _ & HF & Emain).
    eexists. split; [exact Emain|]. cbn [trace].
    unfold header_lines, data_records. rewrite !omap_app.
    change (omap header_line (Ev_reb_create_simulation :: setup_events)) with [header].
    change (omap data_record (Ev_reb_create_simulation :: setup_events))
      with (@nil (string * list R)).
    fold (header_lines evs). fold (data_records evs).
    rewrite (lf_header _ _ _ _ _ HF). cbn [omap app list_omap header_line data_record].
    rewrite app_nil_r.
    split; [reflexivity|].
    split; [exact (lf_records _ _ _ _ _ HF) | exact (lf_well_formed _ _ _ _ _ HF)].
Qed.

(** C6: every iteration of the loop starts in a state in which the keys
    "spin_sx", "spin_sy" and "spin_sz" are found on the star and on the
    planet, its six lookups are these and each returns a value, and it
    runs to its end: no dereference meets a lookup that found nothing.
    Over the whole run there are six lookups per iteration, all found. *)
Theorem spin_lookups_found (HC : store_contract L) :
  (forall k, (k < Z.to_nat N_ITER)%nat ->
     exists w_k s' evs,
       run_iterations L k = Some (tt, w_k) /\
       (forall i key,
           i = 0%nat \/ i = 1%nat ->
           key = "spin_sx"%string \/ key = "spin_sy"%string \/ key = "spin_sz"%string ->
           exists p v,
             particles (sim w_k) !! i = Some p /\ rebx_get_param (ap p) key = Some v) /\
       main_loop_body L (Z.of_nat k) w_k = Some (tt, mk_world s' (trace w_k ++ evs)) /\
       lookups evs = iteration_lookups (sim w_k) /\
       Forall spin_lookup_found (lookups evs)) /\
  exists w,
    main L = Some (tt, w) /\
    length (lookups (trace w)) = (6 * Z.to_nat N_ITER)%nat /\
    Forall spin_lookup_found (lookups (trace w)).
Proof.
  split.
  - intros k _.
    destruct (iteration_ready HC k) as (w_S & w_k & _ & Ek & Hr & _).
    destruct (main_loop_body_run (Z.of_nat k) w_k Hr)
      as (evs & args & E & _ & _ & _ & _ & _ & El).
    exists w_k. eexists. exists evs.
    split; [exact Ek|]. split.
    { intros i key Hi Hkey. destruct Hr as [_ Hs].
      destruct (Hs i key Hi Hkey) as [v Hv]. unfold param in Hv.
      destruct (particles (sim w_k) !! i) as [p|]; [|discriminate].
      exists p, v. split; [reflexivity | exact Hv]. }
    split; [exact E|]. split; [exact El|].
    rewrite El. by apply iteration_lookups_found.
  - destruct (main_run HC) as (w_S & w_N & evs & _ & _ & _ & _ & _ & HF & Emain).
    eexists. split; [exact Emain|]. cbn [trace].
    unfold lookups. rewrite !omap_app.
    change (omap lookup_result (Ev_reb_create_simulation :: setup_events))
      with (@nil (nat * string * option R)).
    change (omap lookup_result [Ev_rebx_free; Ev_reb_free_simulation])
      with (@nil (nat * string * option R)).
    rewrite app_nil_l, app_nil_r.
    split; [exact (lf_lookups _ _ _ _ _ HF) | exact (lf_found _ _ _ _ _ HF)].
Qed.

(** ** The claims about the clock *)

Lemma period_pos : 0 < 100 * 2 * M_PI.
Proof. unfold M_PI. pose proof PI_RGT_0. lra. Qed.

(** Requested times that grow by a positive amount per call are strictly
    increasing. *)
Lemma targets_increasing (t0 c : R) (n start : nat) :
  0 < c ->
  StronglySorted Rlt (map (fun j => t0 + INR (S j) * c) (seq start n)).
Proof.
  intros Hc. revert start. induction n as [|n IH]; intros start.
  - constructor.
  - cbn [seq map]. constructor; [apply IH|].
    apply List.Forall_forall. intros v Hv.
    apply List.in_map_iff in Hv as (j & <- & Hj).
    apply List.in_seq in Hj.
    assert (INR (S start) < INR (S j)) by (apply lt_INR; lia).
    nra.
Qed.

(** The loop advances the clock by 100 * 2 pi per iteration. *)
Lemma loop_time_advanced (HC : store_contract L) (Hclock : clock_contract L) :
  time_advanced L = Some (INR (Z.to_nat N_ITER) * (100 * 2 * M_PI)).
Proof.
  destruct (iteration_ready HC 0) as (w_S & w_0 & E & E0 & _ & _).
  destruct (iteration_ready HC (Z.to_nat N_ITER)) as (w_S' & w_N & E' & EN & _ & Ht).
  rewrite E in E'. injection E' as <-.
  unfold time_advanced. rewrite E0, EN.
  rewrite (run_iterations_from w_S 0%nat E) in E0. cbn in E0. injection E0 as <-.
  rewrite (Ht Hclock). f_equal. lra.
Qed.

(** C1, as amended: the loop covers 10^6 calls of 100 * 2 pi each, that
    is 10^8 * 2 pi, a thousand times the declared [tmax], which the loop
    never reads. *)
Theorem loop_time_covered (HC : store_contract L) (Hclock : clock_contract L) :
  time_advanced L = Some (1000000 * (100 * 2 * PI)) /\
  1000000 * (100 * 2 * PI) = 1e8 * (2 * PI) /\
  1000000 * (100 * 2 * PI) = 1000 * tmax /\
  1000 * tmax <> tmax.
Proof.
  rewrite (loop_time_advanced HC Hclock), N_ITER_INR.
  pose proof PI_RGT_0. unfold tmax, M_PI.
  split; [reflexivity|]. split; [lra|]. split; lra.
Qed.

(** C9: in every iteration the time passed to [reb_integrate] is the
    clock at that moment plus 100 * 2 pi, and the call leaves the clock
    there; between the starts of any two iterations, the earlier first,
    the clock does not decrease; over the whole run the requested times are
    strictly increasing. *)
Theorem clock_monotone (HC : store_contract L) (Hclock : clock_contract L) :
  (forall k, (k < Z.to_nat N_ITER)%nat ->
     exists w_k s' evs,
       run_iterations L k = Some (tt, w_k) /\
       run_iterations L (S k) = Some (tt, mk_world s' (trace w_k ++ evs)) /\
       integrate_targets evs = [t (sim w_k) + 100 * 2 * PI] /\
       t s' = t (sim w_k) + 100 * 2 * PI /\
       t (sim w_k) < t s') /\
  (forall j k, (j <= k <= Z.to_nat N_ITER)%nat ->
     exists w_j w_k,
       run_iterations L j = Some (tt, w_j) /\
       run_iterations L k = Some (tt, w_k) /\
       t (sim w_j) <= t (sim w_k)) /\
  exists w,
    main L = Some (tt, w) /\
    length (integrate_targets (trace w)) = Z.to_nat N_ITER /\
    StronglySorted Rlt (integrate_targets (trace w)).
Proof.
  pose proof period_pos as Hp.
  split; [|split].
  - intros k _.
    destruct (iteration_ready HC k) as (w_S & w_k & _ & Ek & Hr & _).
    destruct (main_loop_body_run (Z.of_nat k) w_k Hr)
      as (evs & args & E & Ei & _).
    exists w_k. eexists. exists evs.
    split; [exact Ek|].
    split; [rewrite (run_iterations_S k w_k Ek); exact E|].
    split; [exact Ei|]. rewrite Hclock. fold M_PI. split; [reflexivity | lra].
  - intros j k Hjk.
    destruct (iteration_ready HC j) as (w_S & w_j & E & Ej & _ & Htj).
    destruct (iteration_ready HC k) as (w_S' & w_k & E' & Ek & _ & Htk).
    rewrite E in E'. injection E' as <-.
    exists w_j, w_k. split; [exact Ej|]. split; [exact Ek|].
    rewrite (Htj Hclock), (Htk Hclock).
    assert (INR j <= INR k) by (apply le_INR; lia). nra.
  - destruct (main_run HC) as (w_S & w_N & evs & _ & _ & _ & _ & _ & HF & Emain).
    eexists. split; [exact Emain|]. cbn [trace].
    unfold integrate_targets. rewrite !omap_app.
    change (omap integrate_target (Ev_reb_create_simulation :: setup_events))
      with (@nil R).
    change (omap integrate_target [Ev_rebx_free; Ev_reb_free_simulation])
      with (@nil R).
    rewrite app_nil_l, app_nil_r. fold (integrate_targets evs).
    split; [exact (lf_targets _ _ _ _ _ HF)|].
    rewrite (proj2 (lf_clock _ _ _ _ _ HF Hclock)).
    apply targets_increasing. exact Hp.
Qed.

(** ** The claim about the spin of the planet *)

Lemma spin_p_pos : 0 < spin_p.
Proof.
  unfold spin_p, spin_period_p, M_PI. pose proof PI_RGT_0.
  apply Rdiv_lt_0_compat; lra.
Qed.

Lemma cos_theta_1_pos : 0 < cos theta_1.
Proof.
  unfold theta_1, M_PI. pose proof PI_RGT_0. apply cos_gt_0; lra.
Qed.

(** The z component the setup stores for the planet is positive. *)
Lemma planet_spin_sz_pos : 0 < spin_p * cos theta_1.
Proof. apply Rmult_lt_0_compat; [exact spin_p_pos | exact cos_theta_1_pos]. Qed.

Lemma abs_le_norm (a b c : R) : Rabs c <= sqrt (a * a + b * b + c * c).
Proof.
  rewrite <- sqrt_Rsqr_abs. apply sqrt_le_1_alt. unfold Rsqr. nra.
Qed.

Lemma ratio_bounds (c mag : R) :
  0 < mag -> Rabs c <= mag -> -1 <= c / mag <= 1.
Proof.
  intros Hm Hc.
  assert (H12 : - mag <= c <= mag)
    by (unfold Rabs in Hc; destruct (Rcase_abs c); lra).
  destruct H12 as [H1 H2].
  assert (Hi : 0 < / mag) by (by apply Rinv_0_lt_compat).
  unfold Rdiv. split.
  - replace (-1) with (- mag * / mag) by (field; lra).
    apply Rmult_le_compat_r; lra.
  - replace 1 with (mag * / mag) by (field; lra).
    apply Rmult_le_compat_r; lra.
Qed.

Lemma finish_setup_spin (HS : spin_contract L) (s : simulation) :
  keeps_spin_norm s (finish_setup L s).
Proof.
  intros i n Hn. unfold finish_setup.
  apply (rebx_spin_initialize_ode_spin _ HS), (align_simulation_spin _ HS),
        (reb_move_to_com_spin _ HS), (rebx_set_time_lag_spin _ HS).
  exact Hn.
Qed.

End Proofs.

(** * Checks on concrete inputs *)

Example header_columns :
  fields header =
  [ "t"; "starx"; "stary"; "starz"; "starvx"; "starvy"; "starvz";
    "star_sx"; "star_sy"; "star_sz"; "a1"; "i1"; "e1"; "s1x"; "s1y"; "s1z";
    "mag1"; "pom1"; "Om1"; "f1"; "p1x"; "p1y"; "p1z"; "p1vx"; "p1vy"; "p1vz";
    "a2"; "i2"; "e2"; "Om2"; "pom2" ]%string.
Proof. vm_compute. reflexivity. Qed.

Example row_format_fields :
  fields row_format = replicate 31 "%.10f"%string.
Proof. vm_compute. reflexivity. Qed.

Example progress_format_conversions : conversions progress_format = 3%nat.
Proof. vm_compute. reflexivity. Qed.

Example percent_sign_converts_nothing : conversions "100%% of %d" = 1%nat.
Proof. vm_compute. reflexivity. Qed.

Example conversion_after_percent_sign : conversions "%%%d%%%.10f" = 2%nat.
Proof. vm_compute. reflexivity. Qed.

Example planet_format_words :
  words "m r a e omega" = ["m"; "r"; "a"; "e"; "omega"]%string.
Proof. vm_compute. reflexivity. Qed.

Example perturber_inclination_passed :
  fmt_arg "m a e inc" [perturber_mass; perturber_a; perturber_e; perturber_inc] "inc"
  = Some perturber_inc.
Proof. reflexivity. Qed.

Example missing_key_not_found :
  rebx_get_param (<["spin_sx" := 1]> ∅) "spin_sy" = None.
Proof. reflexivity. Qed.

Example store_on_missing_particle_fails :
  rebx_set_param_double (reb_create_simulation ref_library) 0 "k2" solar_k2 = None.
Proof. reflexivity. Qed.

(** Setup and two iterations on the reference library: 27 actions up to
    the header, then six lookups, the progress line (first iteration only),
    one record and one [reb_integrate] call per iteration. *)
Example two_iterations_trace :
  option_map (fun r => length (trace r.2)) (run_iterations ref_library 2)
  = Some 44%nat.
Proof. vm_compute. reflexivity. Qed.

(** * The reference library meets the contracts *)

Lemma ref_store_contract : store_contract ref_library.
Proof.
  constructor; cbn; intros.
  - reflexivity.
  - eexists. reflexivity.
  - apply keeps_store_refl.
  - apply keeps_store_refl.
  - apply keeps_store_refl.
  - apply keeps_store_refl.
  - apply keeps_store_refl.
  - apply keeps_store_refl.
  - apply keeps_store_refl.
  - apply keeps_store_same_particles. reflexivity.
Qed.

Lemma ref_clock_contract : clock_contract ref_library.
Proof. intros s target. reflexivity. Qed.

Lemma ref_spin_contract : spin_contract ref_library.
Proof. constructor; cbn; unfold keeps_spin_norm; auto. Qed.

(** * The theorems at the reference library *)


Lemma planet_mass_passed_witness :
  store_contract ref_library /\
  exists w,
    main ref_library = Some (tt, w) /\
    masses_passed (trace w) = [1.1; 7.8 * 9.55e-4; 1.1].
Proof.
  split; [exact ref_store_contract|].
  destruct (planet_mass_passed ref_library ref_store_contract) as (w & E & Hm & _).
  exists w. split; [exact E | exact Hm].
Defined.

(** C3 at the reference library: the mass passed for the planet is
    7.8 * 9.55e-4, not zero. *)
Lemma planet_mass_not_zero :
  exists w,
    main ref_library = Some (tt, w) /\
    masses_passed (trace w) !! 1%nat = Some planet_m /\
    masses_passed (trace w) !! 1%nat <> Some 0.
Proof.
  destruct (main_masses_passed ref_library ref_store_contract) as (w & E & Hm).
  exists w. split; [exact E|]. rewrite Hm. split; [reflexivity|].
  cbn. intros H. injection H as H. pose proof planet_m_pos. lra.
Qed.

Lemma spin_state_initialized_witness :
  store_contract ref_library /\
  exists w,
    main ref_library = Some (tt, w) /\
    before_integration (Ev_rebx_spin_initialize_ode "spin") (trace w).
Proof.
  split; [exact ref_store_contract|].
  destruct (spin_state_initialized ref_library ref_store_contract)
    as (w & E & _ & _ & _ & Hode).
  exists w. split; [exact E | exact Hode].
Defined.

Lemma one_record_per_iteration_witness :
  store_contract ref_library /\
  exists w,
    main ref_library = Some (tt, w) /\
    header_lines (trace w) = [header] /\
    length (data_records (trace w)) = Z.to_nat N_ITER.
Proof.
  split; [exact ref_store_contract|].
  destruct (one_record_per_iteration ref_library ref_store_contract)
    as (_ & _ & w & E & Hh & Hd & _).
  exists w. split; [exact E|]. split; [exact Hh | exact Hd].
Defined.

Lemma spin_lookups_found_witness :
  store_contract ref_library /\
  exists w,
    main ref_library = Some (tt, w) /\
    Forall spin_lookup_found (lookups (trace w)).
Proof.
  split; [exact ref_store_contract|].
  destruct (spin_lookups_found ref_library ref_store_contract)
    as (_ & w & E & _ & Hf).
  exists w. split; [exact E | exact Hf].
Defined.

Lemma loop_time_covered_witness :
  store_contract ref_library /\
  clock_contract ref_library /\
  time_advanced ref_library = Some (1000000 * (100 * 2 * PI)).
Proof.
  split; [exact ref_store_contract|]. split; [exact ref_clock_contract|].
  exact (proj1 (loop_time_covered ref_library ref_store_contract ref_clock_contract)).
Defined.

(** C1, as stated, fails: the loop covers a thousand times [tmax]. *)
Lemma loop_time_not_tmax :
  time_advanced ref_library = Some (1000 * tmax) /\
  time_advanced ref_library <> Some tmax.
Proof.
  rewrite (loop_time_advanced ref_library ref_store_contract ref_clock_contract).
  rewrite N_ITER_INR. pose proof PI_RGT_0. unfold tmax, M_PI. split.
  - f_equal. lra.
  - intros Heq. injection Heq as Heq. lra.
Qed.

Lemma clock_monotone_witness :
  store_contract ref_library /\
  clock_contract ref_library /\
  exists w,
    main ref_library = Some (tt, w) /\
    StronglySorted Rlt (integrate_targets (trace w)).
Proof.
  split; [exact ref_store_contract|]. split; [exact ref_clock_contract|].
  destruct (clock_monotone ref_library ref_store_contract ref_clock_contract)
    as (_ & _ & w & E & _ & Hs).
  exists w. split; [exact E | exact Hs].
Defined.

(** * Further properties of the driver *)

(** ** The spin vector and its obliquity *)

(** Line 122: the length of the planet's spin vector. *)
Definition spin_magnitude (s1 : reb_vec3d) : R :=
  sqrt (v_x s1 * v_x s1 + v_y s1 * v_y s1 + v_z s1 * v_z s1).

(** Line 123: the angle between the spin vector and the z axis, in
    degrees. *)
Definition obliquity_degrees (s1 : reb_vec3d) : R :=
  acos (v_z s1 / spin_magnitude s1) * (180 / M_PI).

(** Lines 78 to 80: the spin vector of rate [spin], tilted by [theta] from
    the z axis, with azimuth [phi]. *)
Definition spin_from_angles (spin theta phi : R) : reb_vec3d :=
  mk_vec3d (spin * sin theta * sin phi) (spin * sin theta * cos phi) (spin * cos theta).

Lemma spin_from_angles_norm2 (spin theta phi : R) :
  (spin * sin theta * sin phi) * (spin * sin theta * sin phi) +
  (spin * sin theta * cos phi) * (spin * sin theta * cos phi) +
  (spin * cos theta) * (spin * cos theta) = spin * spin.
Proof.
  pose proof (sin2_cos2 theta) as Ht. pose proof (sin2_cos2 phi) as Hp.
  unfold Rsqr in Ht, Hp.
  replace ((spin * sin theta * sin phi) * (spin * sin theta * sin phi) +
           (spin * sin theta * cos phi) * (spin * sin theta * cos phi) +
           (spin * cos theta) * (spin * cos theta))
    with (spin * spin *
          (sin theta * sin theta * (sin phi * sin phi + cos phi * cos phi) +
           cos theta * cos theta)) by ring.
  rewrite Hp, Rmult_1_r, Ht. ring.
Qed.

(** X5: the formulas of the loop undo the formulas of the setup: the vector
    built from a positive rate and a tilt between 0 and pi has that rate as
    its length and that tilt, in degrees, as its obliquity. *)
Theorem obliquity_round_trip (spin theta phi : R) :
  0 < spin ->
  0 <= theta <= PI ->
  spin_magnitude (spin_from_angles spin theta phi) = spin /\
  obliquity_degrees (spin_from_angles spin theta phi) = theta * (180 / PI).
Proof.
  intros Hs Ht.
  assert (Hm : spin_magnitude (spin_from_angles spin theta phi) = spin).
  { unfold spin_magnitude, spin_from_angles. cbn [v_x v_y v_z].
    rewrite spin_from_angles_norm2. apply sqrt_square. lra. }
  split; [exact Hm|].
  unfold obliquity_degrees. rewrite Hm. unfold spin_from_angles. cbn [v_z].
  replace (spin * cos theta / spin) with (cos theta) by (field; lra).
  rewrite acos_cos by exact Ht. reflexivity.
Qed.

(** The planet's spin as the setup stores it: 876 turns a year, tilted by
    one degree. *)
Lemma obliquity_round_trip_witness :
  0 < spin_p /\
  0 <= theta_1 <= PI /\
  spin_magnitude (spin_from_angles spin_p theta_1 phi_1) = 876 /\
  obliquity_degrees (spin_from_angles spin_p theta_1 phi_1) = 1.
Proof.
  assert (Hs : 0 < spin_p) by exact spin_p_pos.
  assert (Ht : 0 <= theta_1 <= PI)
    by (unfold theta_1, M_PI; pose proof PI_RGT_0; lra).
  split; [exact Hs|]. split; [exact Ht|].
  destruct (obliquity_round_trip spin_p theta_1 phi_1 Hs Ht) as [Hm Ho].
  split.
  - rewrite Hm. unfold spin_p, spin_period_p, M_PI. pose proof PI_RGT_0. field. lra.
  - rewrite Ho. unfold theta_1, M_PI. pose proof PI_RGT_0. field. lra.
Defined.

Section Extras.

Context {lib_state : Type}.
Variable L : @library lib_state.

(** ** One iteration, action by action *)

(** The 31 values of the record of line 128, from the particles and the
    spin values the iteration has read. *)
Definition record_values (s : @reb_simulation lib_state) (pa pb pc : reb_particle)
    (ax ay az bx byy bz : R) : list R :=
  let o1 := reb_tools_particle_to_orbit L (G s) pb pa in
  let o2 := reb_tools_particle_to_orbit L (G s) pc (reb_get_com_of_pair L pa pb) in
  [ t s / (2 * M_PI); x pa; y pa; z pa; vx pa; vy pa; vz pa; ax; ay; az;
    o_a o1; o_inc o1; o_e o1; bx; byy; bz; spin_magnitude (mk_vec3d bx byy bz);
    o_pomega o1; o_Omega o1; o_f o1;
    x pb; y pb; z pb; vx pb; vy pb; vz pb;
    o_a o2; o_inc o2; o_e o2; o_Omega o2; o_pomega o2 ].

(** The progress line of line 126, printed when the counter is a multiple
    of 10000. *)
Definition progress_events (i : Z) (s : @reb_simulation lib_state)
    (pa pb : reb_particle) (bx byy bz : R) : list event :=
  if (Z.rem i 10000 =? 0)%Z
  then [ Ev_printf progress_format
           [ t s / (2 * M_PI);
             o_a (reb_tools_particle_to_orbit L (G s) pb pa);
             obliquity_degrees (mk_vec3d bx byy bz) ] ]
  else [].

(** The actions of one iteration, in order. *)
Definition iteration_events (i : Z) (s : @reb_simulation lib_state)
    (pa pb pc : reb_particle) (ax ay az bx byy bz : R) : list event :=
  [ Ev_rebx_get_param 0 "spin_sx" (Some ax);
    Ev_rebx_get_param 0 "spin_sy" (Some ay);
    Ev_rebx_get_param 0 "spin_sz" (Some az);
    Ev_rebx_get_param 1 "spin_sx" (Some bx);
    Ev_rebx_get_param 1 "spin_sy" (Some byy);
    Ev_rebx_get_param 1 "spin_sz" (Some bz) ] ++
  progress_events i s pa pb bx byy bz ++
  [ Ev_fprintf row_format (record_values s pa pb pc ax ay az bx byy bz);
    Ev_reb_integrate (t s + 100 * 2 * M_PI) ].

(** What an iteration reads of the state it starts in. *)
Definition iteration_reads (s : @reb_simulation lib_state) (pa pb pc : reb_particle)
    (ax ay az bx byy bz : R) : Prop :=
  particles s !! 0%nat = Some pa /\
  particles s !! 1%nat = Some pb /\
  particles s !! 2%nat = Some pc /\
  param s 0 "spin_sx" = Some ax /\ param s 0 "spin_sy" = Some ay /\
  param s 0 "spin_sz" = Some az /\
  param s 1 "spin_sx" = Some bx /\ param s 1 "spin_sy" = Some byy /\
  param s 1 "spin_sz" = Some bz.

Lemma ready_reads (s : @reb_simulation lib_state) :
  ready s -> exists pa pb pc ax ay az bx byy bz, iteration_reads s pa pb pc ax ay az bx byy bz.
Proof.
  intros [[pc Hpc] Hs].
  destruct (Hs 0%nat "spin_sx"%string) as [ax Hax]; [auto | auto |].
  destruct (Hs 0%nat "spin_sy"%string) as [ay Hay]; [auto | auto |].
  destruct (Hs 0%nat "spin_sz"%string) as [az Haz]; [auto | auto |].
  destruct (Hs 1%nat "spin_sx"%string) as [bx Hbx]; [auto | auto |].
  destruct (Hs 1%nat "spin_sy"%string) as [byy Hby]; [auto | auto |].
  destruct (Hs 1%nat "spin_sz"%string) as [bz Hbz]; [auto | auto |].
  destruct (particles s !! 0%nat) as [pa|] eqn:Hpa;
    [| unfold param in Hax; rewrite Hpa in Hax; discriminate].
  destruct (particles s !! 1%nat) as [pb|] eqn:Hpb;
    [| unfold param in Hbx; rewrite Hpb in Hbx; discriminate].
  exists pa, pb, pc, ax, ay, az, bx, byy, bz. repeat split; assumption.
Qed.

Lemma reads_ready (s : @reb_simulation lib_state) (pa pb pc : reb_particle)
    (ax ay az bx byy bz : R) :
  iteration_reads s pa pb pc ax ay az bx byy bz -> ready s.
Proof.
  intros (Hpa & Hpb & Hpc & Hax & Hay & Haz & Hbx & Hby & Hbz).
  split; [exists pc; exact Hpc|].
  intros i key [-> | ->] [-> | [-> | ->]]; eauto.
Qed.

(** From a state in which the reads succeed, the iteration performs
    [iteration_events] and hands the simulation to [reb_integrate]. *)
Lemma main_loop_body_explicit (i : Z) (s : @reb_simulation lib_state) (tr : list event)
    (pa pb pc : reb_particle) (ax ay az bx byy bz : R) :
  iteration_reads s pa pb pc ax ay az bx byy bz ->
  main_loop_body L i (mk_world s tr) =
    Some (tt, mk_world (reb_integrate L s (t s + 100 * 2 * M_PI))
                       (tr ++ iteration_events i s pa pb pc ax ay az bx byy bz)).
Proof.
  intros (Hpa & Hpb & Hpc & Hax & Hay & Haz & Hbx & Hby & Hbz).
  rewrite (param_lookup s 0 "spin_sx" pa Hpa) in Hax.
  rewrite (param_lookup s 0 "spin_sy" pa Hpa) in Hay.
  rewrite (param_lookup s 0 "spin_sz" pa Hpa) in Haz.
  rewrite (param_lookup s 1 "spin_sx" pb Hpb) in Hbx.
  rewrite (param_lookup s 1 "spin_sy" pb Hpb) in Hby.
  rewrite (param_lookup s 1 "spin_sz" pb Hpb) in Hbz.
  unfold main_loop_body.
  rewrite (get_param_bind 0 "spin_sx" _ s _ pa Hpa), Hax; cbv beta; cbn [sim trace].
  rewrite (get_param_bind 0 "spin_sy" _ s _ pa Hpa), Hay; cbv beta; cbn [sim trace].
  rewrite (get_param_bind 0 "spin_sz" _ s _ pa Hpa), Haz; cbv beta; cbn [sim trace].
  rewrite (get_param_bind 1 "spin_sx" _ s _ pb Hpb), Hbx; cbv beta; cbn [sim trace].
  rewrite (get_param_bind 1 "spin_sy" _ s _ pb Hpb), Hby; cbv beta; cbn [sim trace].
  rewrite (get_param_bind 1 "spin_sz" _ s _ pb Hpb), Hbz; cbv beta; cbn [sim trace].
  rewrite get_sim_bind; cbv beta; cbn [sim trace].
  rewrite (load_particle_bind 1 _ s _ pb Hpb); cbv beta.
  rewrite (load_particle_bind 0 _ s _ pa Hpa); cbv beta.
  rewrite !deref_bind; cbv beta.
  rewrite (load_particle_bind 2 _ s _ pc Hpc); cbv beta.
  cbn [v_x v_y v_z].
  unfold iteration_events, progress_events, record_values, obliquity_degrees,
    spin_magnitude. cbn [v_x v_y v_z].
  destruct (Z.rem i 10000 =? 0)%Z.
  - rewrite emit_bind; cbv beta; cbn [sim trace].
    rewrite !deref_bind; cbv beta.
    rewrite emit_bind; cbv beta; cbn [sim trace].
    rewrite get_sim_bind; cbv beta; cbn [sim trace].
    unfold act. rewrite emit_bind; cbv beta; cbn [sim trace].
    rewrite get_sim_bind; cbv beta; cbn [sim trace]. unfold put_sim; cbn [sim trace].
    rewrite <- !app_assoc. reflexivity.
  - rewrite ret_bind; cbv beta; cbn [sim trace].
    rewrite !deref_bind; cbv beta.
    rewrite emit_bind; cbv beta; cbn [sim trace].
    rewrite get_sim_bind; cbv beta; cbn [sim trace].
    unfold act. rewrite emit_bind; cbv beta; cbn [sim trace].
    rewrite get_sim_bind; cbv beta; cbn [sim trace]. unfold put_sim; cbn [sim trace].
    rewrite <- !app_assoc. reflexivity.
Qed.

(** ** When an iteration hits undefined behaviour *)

Lemma bind_Some_inv {A B} (c : M A) (k : A -> M B) (w : @world lib_state)
    (r : B * @world lib_state) :
  bind c k w = Some r -> exists a w', c w = Some (a, w') /\ k a w' = Some r.
Proof.
  unfold bind. destruct (c w) as [[a w']|]; [|discriminate].
  intros E. exists a, w'. split; [reflexivity | exact E].
Qed.

Lemma get_param_inv (i : nat) (key : string) (w w' : @world lib_state) (res : option R) :
  get_param i key w = Some (res, w') ->
  exists p,
    particles (sim w) !! i = Some p /\ res = ap p !! key /\ sim w' = sim w.
Proof.
  unfold get_param, load_particle, bind, get_sim, of_option, emit, ret, abort.
  destruct (particles (sim w) !! i) as [p|]; [|discriminate].
  intros E. injection E as <- <-. exists p. repeat split.
Qed.

Lemma load_particle_inv (i : nat) (w w' : @world lib_state) (p : reb_particle) :
  load_particle i w = Some (p, w') -> particles (sim w) !! i = Some p /\ w' = w.
Proof.
  unfold load_particle, bind, get_sim, of_option, ret, abort.
  destruct (particles (sim w) !! i) as [q|]; [|discriminate].
  intros E. injection E as <- <-. split; reflexivity.
Qed.

Lemma deref_inv (o : option R) (w w' : @world lib_state) (v : R) :
  deref o w = Some (v, w') -> o = Some v /\ w' = w.
Proof.
  unfold deref, of_option, ret, abort. destruct o as [u|]; [|discriminate].
  intros E. injection E as <- <-. split; reflexivity.
Qed.

(** An iteration that runs to its end has found particles 0, 1 and 2 and
    the six spin entries. *)
Lemma main_loop_body_needs_ready (i : Z) (w : @world lib_state)
    (r : unit * @world lib_state) :
  main_loop_body L i w = Some r -> ready (sim w).
Proof.
  intros E. unfold main_loop_body in E.
  apply bind_Some_inv in E as (o1 & w1 & E1 & E).
  apply get_param_inv in E1 as (p1 & Hp1 & -> & S1).
  apply bind_Some_inv in E as (o2 & w2 & E2 & E).
  apply get_param_inv in E2 as (p2 & Hp2 & -> & S2).
  apply bind_Some_inv in E as (o3 & w3 & E3 & E).
  apply get_param_inv in E3 as (p3 & Hp3 & -> & S3).
  apply bind_Some_inv in E as (o4 & w4 & E4 & E).
  apply get_param_inv in E4 as (p4 & Hp4 & -> & S4).
  apply bind_Some_inv in E as (o5 & w5 & E5 & E).
  apply get_param_inv in E5 as (p5 & Hp5 & -> & S5).
  apply bind_Some_inv in E as (o6 & w6 & E6 & E).
  apply get_param_inv in E6 as (p6 & Hp6 & -> & S6).
  rewrite S5, S4, S3, S2, S1 in Hp6. rewrite S4, S3, S2, S1 in Hp5.
  rewrite S3, S2, S1 in Hp4. rewrite S2, S1 in Hp3. rewrite S1 in Hp2.
  assert (S : sim w6 = sim w) by congruence.
  rewrite Hp1 in Hp2, Hp3. injection Hp2 as <-. injection Hp3 as <-.
  rewrite Hp4 in Hp5, Hp6. injection Hp5 as <-. injection Hp6 as <-.
  apply bind_Some_inv in E as (s & w7 & E7 & E).
  unfold get_sim in E7. injection E7 as <- <-.
  apply bind_Some_inv in E as (pb & w8 & E8 & E).
  apply load_particle_inv in E8 as (_ & ->).
  apply bind_Some_inv in E as (pa & w9 & E9 & E).
  apply load_particle_inv in E9 as (_ & ->).
  apply bind_Some_inv in E as (bx & w10 & E10 & E).
  apply deref_inv in E10 as (Hbx & ->).
  apply bind_Some_inv in E as (byy & w11 & E11 & E).
  apply deref_inv in E11 as (Hby & ->).
  apply bind_Some_inv in E as (bz & w12 & E12 & E).
  apply deref_inv in E12 as (Hbz & ->).
  apply bind_Some_inv in E as (pc & w13 & E13 & E).
  apply load_particle_inv in E13 as (Hpc & ->).
  apply bind_Some_inv in E as ([] & w14 & _ & E).
  apply bind_Some_inv in E as (ax & w15 & E15 & E).
  apply deref_inv in E15 as (Hax & ->).
  apply bind_Some_inv in E as (ay & w16 & E16 & E).
  apply deref_inv in E16 as (Hay & ->).
  apply bind_Some_inv in E as (az & w17 & E17 & _).
  apply deref_inv in E17 as (Haz & ->).
  rewrite S in Hpc.
  apply (reads_ready (sim w) p1 p4 pc ax ay az bx byy bz).
  unfold iteration_reads, param, rebx_get_param. rewrite Hp1, Hp4.
  repeat split; assumption.
Qed.

(** X1: the loop body runs to its end exactly when the simulation holds
    particles 0, 1 and 2 and the entries "spin_sx", "spin_sy", "spin_sz" on
    particles 0 and 1.  In every other state one of its unconditional reads
    (lines 103, 111, 114, 128) is undefined behaviour. *)
Theorem main_loop_body_defined_iff (i : Z) (w : @world lib_state) :
  is_Some (main_loop_body L i w) <-> ready (sim w).
Proof.
  split.
  - intros [r E]. exact (main_loop_body_needs_ready i w r E).
  - intros Hr. destruct (ready_reads (sim w) Hr)
      as (pa & pb & pc & ax & ay & az & bx & byy & bz & Hreads).
    destruct w as [s tr]. cbn [sim] in Hreads.
    rewrite (main_loop_body_explicit i s tr pa pb pc ax ay az bx byy bz Hreads). eauto.
Qed.

(** ** Induction over the iterations, counter and count in step *)

(** A property of the state reached after [k] iterations that holds when
    the loop is entered and that iteration [k], run with counter [k], carries
    over to [k + 1], holds at the start of every iteration. *)
Lemma run_iterations_rule (HC : store_contract L) (w_S : @world lib_state)
    (I : nat -> @world lib_state -> Prop) :
  main_setup L (start L) = Some (tt, w_S) ->
  ready (sim w_S) ->
  I 0%nat w_S ->
  (forall k s tr pa pb pc ax ay az bx byy bz,
      iteration_reads s pa pb pc ax ay az bx byy bz ->
      I k (mk_world s tr) ->
      I (S k) (mk_world (reb_integrate L s (t s + 100 * 2 * M_PI))
                 (tr ++ iteration_events (Z.of_nat k) s pa pb pc ax ay az bx byy bz))) ->
  forall k, exists w_k,
    run_iterations L k = Some (tt, w_k) /\ ready (sim w_k) /\ I k w_k.
Proof.
  intros E Hr H0 Hstep. induction k as [|k (w_k & Ek & Hrk & Hk)].
  - exists w_S. split; [|split; assumption].
    rewrite (run_iterations_from L w_S 0%nat E). reflexivity.
  - destruct (ready_reads (sim w_k) Hrk)
      as (pa & pb & pc & ax & ay & az & bx & byy & bz & Hreads).
    destruct w_k as [s tr]. cbn [sim] in *.
    eexists. split; [|split].
    + rewrite (run_iterations_S L k _ Ek).
      exact (main_loop_body_explicit (Z.of_nat k) s tr pa pb pc ax ay az bx byy bz Hreads).
    + cbn [sim]. eapply ready_keeps; [apply (reb_integrate_keeps _ HC) | exact Hrk].
    + apply Hstep; assumption.
Qed.

(** The trace of the whole program, from the trace at the exit of the
    loop. *)
Lemma main_from_iterations (w_S w_N : @world lib_state) :
  main_setup L (start L) = Some (tt, w_S) ->
  run_iterations L (Z.to_nat N_ITER) = Some (tt, w_N) ->
  main L =
    Some (tt, mk_world (reb_free_simulation L (rebx_free L (sim w_N)))
                       (trace w_N ++ [Ev_rebx_free; Ev_reb_free_simulation])).
Proof.
  intros E EN. rewrite (run_iterations_from L w_S _ E) in EN.
  exact (main_from L w_S w_N E EN).
Qed.

(** ** The progress lines *)

Definition progress_line (e : event) : option (string * list R) :=
  match e with Ev_printf fmt args => Some (fmt, args) | _ => None end.

(** What is printed to the standard output, in order. *)
Definition progress_lines (tr : list event) : list (string * list R) :=
  omap progress_line tr.

Lemma progress_lines_iteration (i : Z) (s : @reb_simulation lib_state)
    (pa pb pc : reb_particle) (ax ay az bx byy bz : R) :
  progress_lines (iteration_events i s pa pb pc ax ay az bx byy bz) =
  if (Z.rem i 10000 =? 0)%Z
  then [ (progress_format,
          [ t s / (2 * M_PI);
            o_a (reb_tools_particle_to_orbit L (G s) pb pa);
            obliquity_degrees (mk_vec3d bx byy bz) ]) ]
  else [].
Proof.
  unfold iteration_events, progress_events.
  destruct (Z.rem i 10000 =? 0)%Z; reflexivity.
Qed.

Lemma progress_count_step (k : Z) :
  (0 <= k)%Z ->
  ((k + 1 + 9999) / 10000 =
   (k + 9999) / 10000 + (if Z.rem k 10000 =? 0 then 1 else 0))%Z.
Proof.
  intros Hk. rewrite Z.rem_mod_nonneg by lia.
  destruct (Z.eqb_spec (k mod 10000) 0) as [H0 | H0];
    Z.div_mod_to_equations; lia.
Qed.

Lemma progress_count (HC : store_contract L) (k : nat) :
  exists w_k,
    run_iterations L k = Some (tt, w_k) /\
    Z.of_nat (length (progress_lines (trace w_k))) = ((Z.of_nat k + 9999) / 10000)%Z.
Proof.
  destruct (loop_entry L HC) as (w_S & E & Hr & Htr).
  destruct (run_iterations_rule HC w_S
              (fun k w => Z.of_nat (length (progress_lines (trace w))) =
                          ((Z.of_nat k + 9999) / 10000)%Z) E Hr) with (k := k)
    as (w_k & Ek & _ & Hk).
  - rewrite Htr. reflexivity.
  - intros j s tr pa pb pc ax ay az bx byy bz _ IH. cbn [trace] in *.
    unfold progress_lines in *. rewrite omap_app, length_app, Nat2Z.inj_add, IH.
    fold (progress_lines (iteration_events (Z.of_nat j) s pa pb pc ax ay az bx byy bz)).
    rewrite progress_lines_iteration, Nat2Z.inj_succ. unfold Z.succ.
    rewrite (progress_count_step (Z.of_nat j)) by lia.
    destruct (Z.rem (Z.of_nat j) 10000 =? 0)%Z; reflexivity.
  - exists w_k. split; assumption.
Qed.

(** X2: the progress line is printed in the iterations whose counter is a
    multiple of 10000 and in no other: it shows the time in units of 2 pi,
    the semi-major axis of the inner orbit and the obliquity of the planet's
    spin, all for the state the iteration starts in.  The whole run prints
    100 progress lines. *)
Theorem progress_every_10000 (HC : store_contract L) :
  (forall k, (k < Z.to_nat N_ITER)%nat ->
     exists w_k s' evs,
       run_iterations L k = Some (tt, w_k) /\
       run_iterations L (S k) = Some (tt, mk_world s' (trace w_k ++ evs)) /\
       ((Z.of_nat k mod 10000 = 0)%Z ->
          exists a1 bx byy bz,
            column L (sim w_k) "a1" = Some a1 /\
            param (sim w_k) 1 "spin_sx" = Some bx /\
            param (sim w_k) 1 "spin_sy" = Some byy /\
            param (sim w_k) 1 "spin_sz" = Some bz /\
            progress_lines evs =
              [ (progress_format,
                 [ t (sim w_k) / (2 * PI); a1;
                   obliquity_degrees (mk_vec3d bx byy bz) ]) ]) /\
       ((Z.of_nat k mod 10000 <> 0)%Z -> progress_lines evs = [])) /\
  exists w,
    main L = Some (tt, w) /\
    length (progress_lines (trace w)) = 100%nat.
Proof.
  split.
  - intros k _.
    destruct (iteration_ready L HC k) as (w_S & w_k & _ & Ek & Hr & _).
    destruct (ready_reads (sim w_k) Hr)
      as (pa & pb & pc & ax & ay & az & bx & byy & bz & Hreads).
    destruct w_k as [s tr]. cbn [sim trace] in *.
    pose proof (main_loop_body_explicit (Z.of_nat k) s tr pa pb pc ax ay az bx byy bz Hreads)
      as Ebody.
    eexists. eexists. eexists. split; [exact Ek|].
    split; [rewrite (run_iterations_S L k _ Ek); exact Ebody|].
    cbn [sim trace]. rewrite progress_lines_iteration.
    rewrite Z.rem_mod_nonneg by lia.
    destruct Hreads as (Hpa & Hpb & Hpc & _ & _ & _ & Hbx & Hby & Hbz).
    split.
    + intros Hmod. exists (o_a (reb_tools_particle_to_orbit L (G s) pb pa)), bx, byy, bz.
      split; [unfold column; rewrite Hpa, Hpb, Hpc; reflexivity|].
      split; [exact Hbx|]. split; [exact Hby|]. split; [exact Hbz|].
      rewrite Hmod. reflexivity.
    + intros Hmod. destruct (Z.eqb_spec (Z.of_nat k mod 10000) 0); [contradiction | reflexivity].
  - destruct (loop_entry L HC) as (w_S & E & _ & _).
    destruct (progress_count HC (Z.to_nat N_ITER)) as (w_N & EN & Hcount).
    eexists. split; [exact (main_from_iterations w_S w_N E EN)|]. cbn [trace].
    unfold progress_lines in *. rewrite omap_app, length_app. cbn [omap list_omap progress_line length].
    rewrite Z2Nat.id in Hcount by (unfold N_ITER; lia).
    change ((N_ITER + 9999) / 10000)%Z with 100%Z in Hcount. lia.
Qed.

(** ** The records, column by column *)

(** The value a record holds under a column of the header. *)
Definition field_of (name : string) (args : list R) : option R :=
  arg_of name (fields header) args.

(** The time column of the data records, in order. *)
Definition record_times (tr : list event) : list R :=
  omap (fun rec : string * list R => field_of "t" rec.2) (data_records tr).

(** The spin columns of a record agree: "mag1" holds the length of the
    vector under "s1x", "s1y", "s1z". *)
Definition spin_columns_agree (rec : string * list R) : Prop :=
  exists sx sy sz,
    field_of "s1x" rec.2 = Some sx /\
    field_of "s1y" rec.2 = Some sy /\
    field_of "s1z" rec.2 = Some sz /\
    field_of "mag1" rec.2 = Some (sqrt (sx * sx + sy * sy + sz * sz)) /\
    0 <= sqrt (sx * sx + sy * sy + sz * sz).

Lemma data_records_iteration (i : Z) (s : @reb_simulation lib_state)
    (pa pb pc : reb_particle) (ax ay az bx byy bz : R) :
  data_records (iteration_events i s pa pb pc ax ay az bx byy bz) =
  [ (row_format, record_values s pa pb pc ax ay az bx byy bz) ].
Proof.
  unfold iteration_events, progress_events.
  destruct (Z.rem i 10000 =? 0)%Z; reflexivity.
Qed.

Lemma record_values_spin_columns (s : @reb_simulation lib_state)
    (pa pb pc : reb_particle) (ax ay az bx byy bz : R) :
  spin_columns_agree (row_format, record_values s pa pb pc ax ay az bx byy bz).
Proof.
  exists bx, byy, bz. cbn [snd].
  split; [reflexivity|]. split; [reflexivity|]. split; [reflexivity|].
  split; [reflexivity | apply sqrt_pos].
Qed.

Lemma record_values_time (s : @reb_simulation lib_state)
    (pa pb pc : reb_particle) (ax ay az bx byy bz : R) :
  field_of "t" (record_values s pa pb pc ax ay az bx byy bz) = Some (t s / (2 * M_PI)).
Proof. reflexivity. Qed.

(** X3: in every record of the output the "mag1" column is the length of the
    spin vector in the "s1x", "s1y", "s1z" columns of the same record, and
    is not negative. *)
Theorem records_spin_columns_agree (HC : store_contract L) :
  exists w,
    main L = Some (tt, w) /\
    length (data_records (trace w)) = Z.to_nat N_ITER /\
    Forall spin_columns_agree (data_records (trace w)).
Proof.
  destruct (loop_entry L HC) as (w_S & E & Hr & Htr).
  destruct (run_iterations_rule HC w_S
              (fun k w => length (data_records (trace w)) = k /\
                          Forall spin_columns_agree (data_records (trace w)))
              E Hr) with (k := Z.to_nat N_ITER)
    as (w_N & EN & _ & Hlen & Hall).
  - rewrite Htr. split; [reflexivity | apply List.Forall_nil].
  - intros j s tr pa pb pc ax ay az bx byy bz _ [IHl IHa]. cbn [trace] in *.
    unfold data_records in *. rewrite omap_app.
    fold (data_records (iteration_events (Z.of_nat j) s pa pb pc ax ay az bx byy bz)).
    rewrite data_records_iteration. split.
    + rewrite length_app, IHl. cbn [length]. lia.
    + apply Forall_app. split; [exact IHa|].
      apply List.Forall_cons; [apply record_values_spin_columns | apply List.Forall_nil].
  - eexists. split; [exact (main_from_iterations w_S w_N E EN)|]. cbn [trace].
    unfold data_records in *. rewrite omap_app.
    cbn [omap list_omap data_record]. rewrite app_nil_r. split; assumption.
Qed.

(** ** The phases of the run *)





End Extras.

(** * The further theorems at the reference library *)

Example loop_body_undefined_without_particles :
  main_loop_body ref_library 0 (start ref_library) = None.
Proof. reflexivity. Qed.

Lemma progress_every_10000_witness :
  store_contract ref_library /\
  exists w,
    main ref_library = Some (tt, w) /\
    length (progress_lines (trace w)) = 100%nat.
Proof.
  split; [exact ref_store_contract|].
  exact (proj2 (progress_every_10000 ref_library ref_store_contract)).
Defined.

Lemma records_spin_columns_agree_witness :
  store_contract ref_library /\
  exists w,
    main ref_library = Some (tt, w) /\
    Forall spin_columns_agree (data_records (trace w)).
Proof.
  split; [exact ref_store_contract|].
  destruct (records_spin_columns_agree ref_library ref_store_contract) as (w & E & _ & H).
  exists w. split; [exact E | exact H].
Defined.



(** * The stored spin *)

Ltac in_setup_events :=
  unfold setup_events; cbn [In]; repeat first [left; reflexivity | right].

(** The three values the setup stores for the planet (lines 78 to 80) are
    the components of [spin_from_angles spin_p theta_1 phi_1]. *)
Lemma setup_stores_spin_from_angles :
  In (Ev_rebx_set_param_double 1 "spin_sx" (v_x (spin_from_angles spin_p theta_1 phi_1)))
     setup_events /\
  In (Ev_rebx_set_param_double 1 "spin_sy" (v_y (spin_from_angles spin_p theta_1 phi_1)))
     setup_events /\
  In (Ev_rebx_set_param_double 1 "spin_sz" (v_z (spin_from_angles spin_p theta_1 phi_1)))
     setup_events.
Proof. repeat split; in_setup_events. Qed.

(** * The state the first integration call receives *)

Section FirstCall.

Context {lib_state : Type}.
Variable L : @library lib_state.

(** The step and the scheme are as they were. *)
Definition keeps_config (s s' : @reb_simulation lib_state) : Prop :=
  dt s' = dt s /\ integrator s' = integrator s.

(** The design document has the step "initialized to a caller-supplied
    starting step, mutated only by the integrator's step-size controller";
    the same is asked for the scheme the caller has selected.  None of the
    library calls of the setup is the integrator: each leaves [r->dt] and
    [r->integrator] as it finds them. *)
Record config_contract : Prop := mk_config_contract {
  reb_add_config : forall s p, keeps_config s (reb_add L s p);
  reb_add_fmt_config : forall s fmt args, keeps_config s (reb_add_fmt L s fmt args);
  rebx_attach_config : forall s, keeps_config s (rebx_attach L s);
  rebx_load_force_config : forall s name, keeps_config s (rebx_load_force L s name);
  rebx_add_force_config : forall s name, keeps_config s (rebx_add_force L s name);
  rebx_set_time_lag_config :
    forall s i tau, keeps_config s (rebx_set_time_lag L s i tau);
  reb_move_to_com_config : forall s, keeps_config s (reb_move_to_com L s);
  align_simulation_config : forall s, keeps_config s (align_simulation L s);
  rebx_spin_initialize_ode_config :
    forall s name, keeps_config s (rebx_spin_initialize_ode L s name)
}.

(** If [c] is run in a state whose simulation satisfies [P] and returns,
    the simulation it leaves satisfies [Q]. *)
Definition holds_after {A} (P Q : @reb_simulation lib_state -> Prop) (c : M A) : Prop :=
  forall w a w', c w = Some (a, w') -> P (sim w) -> Q (sim w').

Lemma holds_after_bind {A B} (P Q R' : @reb_simulation lib_state -> Prop)
    (c : M A) (k : A -> M B) :
  holds_after P Q c -> (forall a, holds_after Q R' (k a)) ->
  holds_after P R' (bind c k).
Proof.
  intros Hc Hk w b w' E HP. unfold bind in E.
  destruct (c w) as [[a w1]|] eqn:Ec; [|discriminate].
  exact (Hk a w1 b w' E (Hc w a w1 Ec HP)).
Qed.

Lemma holds_after_act (P Q : @reb_simulation lib_state -> Prop) (e : event)
    (f : @reb_simulation lib_state -> @reb_simulation lib_state) :
  (forall s, P s -> Q (f s)) -> holds_after P Q (act e f).
Proof.
  intros Hf w a w' E HP. unfold act, bind, emit, get_sim, put_sim in E.
  cbn [sim trace] in E. injection E as _ <-. cbn [sim]. exact (Hf _ HP).
Qed.

Lemma holds_after_emit (P : @reb_simulation lib_state -> Prop) (e : event) :
  holds_after P P (emit e).
Proof.
  intros w a w' E HP. unfold emit in E. injection E as _ <-. exact HP.
Qed.

Lemma rebx_set_param_double_config (s s' : @reb_simulation lib_state)
    (i : nat) (key : string) (v : R) :
  rebx_set_param_double s i key v = Some s' -> keeps_config s s'.
Proof.
  unfold rebx_set_param_double. destruct (particles s !! i); [|discriminate].
  intros E. injection E as <-. split; reflexivity.
Qed.

Lemma holds_after_set_param (P : @reb_simulation lib_state -> Prop)
    (i : nat) (key : string) (v : R) :
  (forall s s', keeps_config s s' -> P s -> P s') ->
  holds_after P P (set_param i key v).
Proof.
  intros HP w a w' E Hw.
  unfold set_param, bind, emit, get_sim, put_sim, of_option, ret, abort in E.
  cbn [sim trace] in E.
  destruct (rebx_set_param_double (sim w) i key v) as [s'|] eqn:Es; [|discriminate].
  injection E as _ <-. cbn [sim].
  exact (HP _ _ (rebx_set_param_double_config _ _ _ _ _ Es) Hw).
Qed.

(** The step and the scheme of lines 23 and 24. *)
Definition configured (s : @reb_simulation lib_state) : Prop :=
  dt s = M_PI * 1e-1 /\ integrator s = REB_INTEGRATOR_IAS15.

Lemma configured_kept (s s' : @reb_simulation lib_state) :
  keeps_config s s' -> configured s -> configured s'.
Proof. intros [Ed Ei] [Hd Hi]. split; congruence. Qed.

Ltac config_step HK :=
  first
    [ apply holds_after_set_param; exact configured_kept
    | apply holds_after_emit
    | apply holds_after_act; intros s Hs;
      refine (configured_kept _ _ _ Hs);
      first
        [ apply (reb_add_config HK) | apply (reb_add_fmt_config HK)
        | apply (rebx_attach_config HK) | apply (rebx_load_force_config HK)
        | apply (rebx_add_force_config HK) | apply (rebx_set_time_lag_config HK)
        | apply (reb_move_to_com_config HK) | apply (align_simulation_config HK)
        | apply (rebx_spin_initialize_ode_config HK)
        | split; reflexivity ] ].

(** Whatever state the setup is started in, if it returns it leaves the
    step at pi * 1e-1 and the scheme at IAS15: lines 23 and 24 store them, and
    nothing after them in the setup changes them. *)
Lemma main_setup_configured (HK : config_contract) :
  holds_after (fun _ => True) configured (main_setup L).
Proof.
  unfold main_setup.
  apply holds_after_bind with (Q := fun s => dt s = M_PI * 1e-1).
  { apply holds_after_act. intros s _. reflexivity. }
  intros _.
  apply holds_after_bind with (Q := configured).
  { apply holds_after_act. intros s Hd. split; [exact Hd | reflexivity]. }
  intros _.
  repeat (apply holds_after_bind with (Q := configured);
          [config_step HK | intros _]).
  config_step HK.
Qed.

Lemma integrate_targets_iteration (i : Z) (s : @reb_simulation lib_state)
    (pa pb pc : reb_particle) (ax ay az bx byy bz : R) :
  integrate_targets (iteration_events L i s pa pb pc ax ay az bx byy bz) =
  [t s + 100 * 2 * M_PI].
Proof.
  unfold iteration_events, progress_events.
  destruct (Z.rem i 10000 =? 0)%Z; reflexivity.
Qed.

End FirstCall.

(** * The first iteration and the record times *)

Section LoopEntry.

Context {lib_state : Type}.
Variable L : @library lib_state.

(** The first iteration starts in the state the setup leaves, reads the
    six spin entries there, and hands that very simulation to
    [reb_integrate]. *)
Lemma first_iteration (HC : store_contract L) :
  exists w_S pa pb pc ax ay az bx byy bz,
    main_setup L (start L) = Some (tt, w_S) /\
    run_iterations L 0 = Some (tt, w_S) /\
    trace w_S = Ev_reb_create_simulation :: setup_events /\
    iteration_reads (sim w_S) pa pb pc ax ay az bx byy bz /\
    main_loop_body L 0 w_S =
      Some (tt, mk_world (reb_integrate L (sim w_S) (t (sim w_S) + 100 * 2 * M_PI))
                         (trace w_S ++
                          iteration_events L 0 (sim w_S) pa pb pc ax ay az bx byy bz)).
Proof.
  destruct (loop_entry L HC) as (w_S & E & Hr & Htr).
  destruct (ready_reads (sim w_S) Hr)
    as (pa & pb & pc & ax & ay & az & bx & byy & bz & Hreads).
  exists w_S, pa, pb, pc, ax, ay, az, bx, byy, bz.
  split; [exact E|].
  split; [rewrite (run_iterations_from L w_S 0%nat E); reflexivity|].
  split; [exact Htr|]. split; [exact Hreads|].
  destruct w_S as [s tr]. cbn [sim trace].
  exact (main_loop_body_explicit L 0 s tr pa pb pc ax ay az bx byy bz Hreads).
Qed.

(** C8: the setup runs to the loop without a call of [reb_integrate], and
    the simulation it leaves there has the timestep pi * 1e-1 and the scheme
    IAS15 in its fields; the first iteration hands this very simulation to
    the first [reb_integrate] call.  Over the whole run the two stores of
    lines 23 and 24 come before the first [reb_integrate] call and are the
    only stores into [r->dt] and [r->integrator]. *)
Theorem starting_step_and_scheme (HC : store_contract L) (HK : config_contract L) :
  exists w_S evs w,
    run_iterations L 0 = Some (tt, w_S) /\
    integrate_targets (trace w_S) = [] /\
    dt (sim w_S) = PI * 1e-1 /\
    integrator (sim w_S) = REB_INTEGRATOR_IAS15 /\
    main_loop_body L 0 w_S =
      Some (tt, mk_world (reb_integrate L (sim w_S) (t (sim w_S) + 100 * 2 * PI))
                         (trace w_S ++ evs)) /\
    integrate_targets evs = [t (sim w_S) + 100 * 2 * PI] /\
    main L = Some (tt, w) /\
    integrate_targets (trace w) <> [] /\
    before_integration (Ev_store_dt (PI * 1e-1)) (trace w) /\
    before_integration (Ev_store_integrator REB_INTEGRATOR_IAS15) (trace w) /\
    omap dt_store (trace w) = [PI * 1e-1] /\
    omap integrator_store (trace w) = [REB_INTEGRATOR_IAS15].
Proof.
  destruct (first_iteration HC)
    as (w_S & pa & pb & pc & ax & ay & az & bx & byy & bz & E & E0 & Htr & _ & Ebody).
  destruct (main_setup_configured L HK (start L) tt w_S E I) as [Hdt Hint].
  destruct (main_run L HC) as (w_S' & w_N & evs & _ & _ & _ & _ & _ & HF & Emain).
  exists w_S. eexists. eexists.
  split; [exact E0|].
  split; [rewrite Htr; exact setup_events_no_integration|].
  split; [exact Hdt|]. split; [exact Hint|].
  split; [exact Ebody|].
  split; [apply integrate_targets_iteration|].
  split; [exact Emain|]. cbn [trace].
  split; [exact (main_integrates evs _ N_ITER_pos (lf_targets _ _ _ _ _ HF))|].
  split; [apply before_integration_setup; unfold setup_events; cbn [In];
          repeat first [left; reflexivity | right]|].
  split; [apply before_integration_setup; unfold setup_events; cbn [In];
          repeat first [left; reflexivity | right]|].
  split.
  { rewrite setup_reading; [reflexivity | | exact (lf_events _ _ _ _ _ HF)].
    intros [] He; try reflexivity; destruct He. }
  rewrite setup_reading; [reflexivity | | exact (lf_events _ _ _ _ _ HF)].
  intros [] He; try reflexivity; destruct He.
Qed.

(** C10: the first iteration of the loop runs to its end.  With [sx], [sy],
    [sz] the spin entries of the planet it reads, the record it writes has
    mag1 = sqrt (sx^2 + sy^2 + sz^2) under "mag1", and the progress line it
    prints shows acos (sz / mag1) in degrees.  This mag1 is positive, so the
    quotient divides by a non-zero number, and the quotient lies in [-1, 1].
    The length is that of the vector stored in the setup, whose z component
    spin_p * cos theta_1 is positive. *)
Theorem planet_spin_magnitude_positive (HC : store_contract L) (HS : spin_contract L) :
  exists w_S s' evs a1 args sx sy sz,
    run_iterations L 0 = Some (tt, w_S) /\
    main_loop_body L 0 w_S = Some (tt, mk_world s' (trace w_S ++ evs)) /\
    run_iterations L 1 = Some (tt, mk_world s' (trace w_S ++ evs)) /\
    lookups evs =
      [ (0%nat, "spin_sx"%string, param (sim w_S) 0 "spin_sx");
        (0%nat, "spin_sy"%string, param (sim w_S) 0 "spin_sy");
        (0%nat, "spin_sz"%string, param (sim w_S) 0 "spin_sz");
        (1%nat, "spin_sx"%string, Some sx);
        (1%nat, "spin_sy"%string, Some sy);
        (1%nat, "spin_sz"%string, Some sz) ] /\
    param (sim w_S) 1 "spin_sx" = Some sx /\
    param (sim w_S) 1 "spin_sy" = Some sy /\
    param (sim w_S) 1 "spin_sz" = Some sz /\
    data_records evs = [ (row_format, args) ] /\
    field_of "mag1" args = Some (sqrt (sx * sx + sy * sy + sz * sz)) /\
    progress_lines evs =
      [ (progress_format,
         [ t (sim w_S) / (2 * PI); a1;
           acos (sz / sqrt (sx * sx + sy * sy + sz * sz)) * (180 / PI) ]) ] /\
    0 < spin_p * cos theta_1 /\
    sx * sx + sy * sy + sz * sz =
      (spin_p * sin theta_1 * sin phi_1) * (spin_p * sin theta_1 * sin phi_1) +
      (spin_p * sin theta_1 * cos phi_1) * (spin_p * sin theta_1 * cos phi_1) +
      (spin_p * cos theta_1) * (spin_p * cos theta_1) /\
    0 < sqrt (sx * sx + sy * sy + sz * sz) /\
    -1 <= sz / sqrt (sx * sx + sy * sy + sz * sz) <= 1.
Proof.
  destruct (main_setup_run L HC (start L)) as (s_a & E & Hra & Hx & Hy & Hz).
  assert (Hn : spin_norm2 (finish_setup L s_a) 1 =
               Some ((spin_p * sin theta_1 * sin phi_1) * (spin_p * sin theta_1 * sin phi_1) +
                     (spin_p * sin theta_1 * cos phi_1) * (spin_p * sin theta_1 * cos phi_1) +
                     (spin_p * cos theta_1) * (spin_p * cos theta_1))).
  { apply (finish_setup_spin L HS). unfold spin_norm2. rewrite Hx, Hy, Hz. reflexivity. }
  unfold spin_norm2 in Hn.
  destruct (param (finish_setup L s_a) 1 "spin_sx") as [sx|] eqn:Ex; [|discriminate].
  destruct (param (finish_setup L s_a) 1 "spin_sy") as [sy|] eqn:Ey; [|discriminate].
  destruct (param (finish_setup L s_a) 1 "spin_sz") as [sz|] eqn:Ez; [|discriminate].
  injection Hn as Hn.
  assert (Hr : ready (finish_setup L s_a)).
  { eapply ready_keeps; [apply (finish_setup_keeps L HC) | exact Hra]. }
  destruct (ready_reads (finish_setup L s_a) Hr)
    as (pa & pb & pc & ax & ay & az & bx & byy & bz & Hreads).
  pose proof Hreads as (Hpa & Hpb & Hpc & Hax & Hay & Haz & Hbx & Hby & Hbz).
  rewrite Ex in Hbx. injection Hbx as <-.
  rewrite Ey in Hby. injection Hby as <-.
  rewrite Ez in Hbz. injection Hbz as <-.
  pose proof (main_loop_body_explicit L 0 _ (trace (start L) ++ setup_events)
                pa pb pc ax ay az sx sy sz Hreads) as Ebody.
  assert (E0 : run_iterations L 0 =
               Some (tt, mk_world (finish_setup L s_a) (trace (start L) ++ setup_events))).
  { rewrite (run_iterations_from L _ 0%nat E). reflexivity. }
  eexists. eexists. eexists.
  exists (o_a (reb_tools_particle_to_orbit L (G (finish_setup L s_a)) pb pa)).
  exists (record_values L (finish_setup L s_a) pa pb pc ax ay az sx sy sz).
  exists sx, sy, sz.
  split; [exact E0|].
  split; [exact Ebody|].
  split; [rewrite (run_iterations_S L 0%nat _ E0); exact Ebody|].
  cbn [sim trace].
  split; [rewrite Hax, Hay, Haz; reflexivity|].
  split; [exact Ex|]. split; [exact Ey|]. split; [exact Ez|].
  split; [apply data_records_iteration|].
  split; [reflexivity|].
  split; [rewrite progress_lines_iteration; reflexivity|].
  pose proof (planet_spin_sz_pos) as Hpos.
  split; [exact Hpos|]. split; [exact Hn|].
  assert (Hmag : 0 < sqrt (sx * sx + sy * sy + sz * sz)).
  { apply sqrt_lt_R0. rewrite Hn. nra. }
  split; [exact Hmag|].
  apply ratio_bounds; [exact Hmag | apply abs_le_norm].
Qed.

End LoopEntry.

(** * The time column of the output *)

Section RecordTimes.

Context {lib_state : Type}.
Variable L : @library lib_state.

Lemma record_times_app (tr1 tr2 : list event) :
  record_times (tr1 ++ tr2) = record_times tr1 ++ record_times tr2.
Proof. unfold record_times, data_records. rewrite !omap_app. reflexivity. Qed.

Lemma record_times_iteration (i : Z) (s : @reb_simulation lib_state)
    (pa pb pc : reb_particle) (ax ay az bx byy bz : R) :
  record_times (iteration_events L i s pa pb pc ax ay az bx byy bz) =
  [t s / (2 * M_PI)].
Proof. unfold record_times. rewrite data_records_iteration. reflexivity. Qed.

Lemma integrate_targets_app (tr1 tr2 : list event) :
  integrate_targets (tr1 ++ tr2) = integrate_targets tr1 ++ integrate_targets tr2.
Proof. unfold integrate_targets. apply omap_app. Qed.

Lemma StronglySorted_snoc (l : list R) (v : R) :
  StronglySorted Rlt l -> Forall (fun u => u < v) l -> StronglySorted Rlt (l ++ [v]).
Proof.
  induction l as [|u l IH]; intros Hs Hall.
  - constructor; constructor.
  - apply StronglySorted_inv in Hs as [Hs Hu].
    apply Forall_cons in Hall as [Huv Hall].
    cbn [app]. constructor; [exact (IH Hs Hall)|].
    apply Forall_app. split; [exact Hu|].
    apply List.Forall_cons; [exact Huv | apply List.Forall_nil].
Qed.

Lemma time_column_lt (a : R) : a / (2 * M_PI) < (a + 100 * 2 * M_PI) / (2 * M_PI).
Proof.
  pose proof period_pos as Hp. unfold M_PI in *. pose proof PI_RGT_0 as Hpi.
  unfold Rdiv. apply Rmult_lt_compat_r; [apply Rinv_0_lt_compat; lra | lra].
Qed.

(** What holds of the time column after [k] iterations that started with
    the clock at [t0]. *)
Definition times_inv (t0 : R) (k : nat) (w : @world lib_state) : Prop :=
  length (record_times (trace w)) = k /\
  record_times (trace w) ++ [t (sim w) / (2 * M_PI)] =
    map (fun T => T / (2 * M_PI)) (t0 :: integrate_targets (trace w)) /\
  StronglySorted Rlt (record_times (trace w)) /\
  Forall (fun u => u < t (sim w) / (2 * M_PI)) (record_times (trace w)).

Lemma times_inv_step (Hclock : clock_contract L) (t0 : R) (k : nat)
    (s : @reb_simulation lib_state) (tr : list event)
    (pa pb pc : reb_particle) (ax ay az bx byy bz : R) :
  times_inv t0 k (mk_world s tr) ->
  times_inv t0 (S k)
    (mk_world (reb_integrate L s (t s + 100 * 2 * M_PI))
              (tr ++ iteration_events L (Z.of_nat k) s pa pb pc ax ay az bx byy bz)).
Proof.
  intros (Hlen & Heq & Hs & Hall). unfold times_inv in *. cbn [sim trace] in *.
  rewrite record_times_app, record_times_iteration, integrate_targets_app,
    integrate_targets_iteration, Hclock.
  pose proof (time_column_lt (t s)) as Hlt.
  split; [rewrite length_app, Hlen; cbn [length]; lia|].
  split.
  { rewrite app_comm_cons, map_app, <- Heq. reflexivity. }
  split; [apply StronglySorted_snoc; assumption|].
  apply Forall_app. split.
  - eapply List.Forall_impl; [|exact Hall]. cbv beta. intros u Hu.
    rewrite Hclock. exact (Rlt_trans _ _ _ Hu Hlt).
  - apply List.Forall_cons; [rewrite ?Hclock; exact Hlt | apply List.Forall_nil].
Qed.

(** X4: the time column of the output follows the clock.  The run writes
    one time per iteration; the first is the clock at the entry of the loop
    and every later one is the time the preceding [reb_integrate] call was
    asked for, each divided by 2 pi; the time the last call was asked for
    is the clock at the exit of the loop, which no record shows.  The
    column is strictly increasing. *)
Theorem record_times_follow_clock (HC : store_contract L) (Hclock : clock_contract L) :
  exists w_S w_N w,
    run_iterations L 0 = Some (tt, w_S) /\
    run_iterations L (Z.to_nat N_ITER) = Some (tt, w_N) /\
    main L = Some (tt, w) /\
    length (record_times (trace w)) = Z.to_nat N_ITER /\
    record_times (trace w) ++ [t (sim w_N) / (2 * PI)] =
      map (fun T => T / (2 * PI)) (t (sim w_S) :: integrate_targets (trace w)) /\
    StronglySorted Rlt (record_times (trace w)).
Proof.
  destruct (loop_entry L HC) as (w_S & E & Hr & Htr).
  destruct (run_iterations_rule L HC w_S (times_inv (t (sim w_S))) E Hr)
    with (k := Z.to_nat N_ITER) as (w_N & EN & _ & Hlen & Heq & Hs & _).
  - unfold times_inv. rewrite Htr.
    split; [reflexivity|]. split; [reflexivity|].
    split; [constructor | apply List.Forall_nil].
  - intros k s tr pa pb pc ax ay az bx byy bz _ IH.
    apply (times_inv_step Hclock); exact IH.
  - exists w_S, w_N. eexists.
    split; [rewrite (run_iterations_from L w_S 0%nat E); reflexivity|].
    split; [exact EN|].
    split; [exact (main_from_iterations L w_S w_N E EN)|]. cbn [trace].
    rewrite record_times_app, integrate_targets_app.
    change (record_times [Ev_rebx_free; Ev_reb_free_simulation]) with (@nil R).
    change (integrate_targets [Ev_rebx_free; Ev_reb_free_simulation]) with (@nil R).
    rewrite !app_nil_r.
    split; [exact Hlen|]. split; [exact Heq | exact Hs].
Qed.

End RecordTimes.

(** * The loop entry and the time column at the reference library *)

Lemma ref_config_contract : config_contract ref_library.
Proof. constructor; cbn; intros; split; reflexivity. Qed.

Lemma starting_step_and_scheme_witness :
  store_contract ref_library /\
  config_contract ref_library /\
  exists w_S,
    run_iterations ref_library 0 = Some (tt, w_S) /\
    dt (sim w_S) = PI * 1e-1 /\
    integrator (sim w_S) = REB_INTEGRATOR_IAS15.
Proof.
  split; [exact ref_store_contract|]. split; [exact ref_config_contract|].
  destruct (starting_step_and_scheme ref_library ref_store_contract ref_config_contract)
    as (w_S & _ & _ & E & _ & Hdt & Hi & _).
  exists w_S. split; [exact E|]. split; [exact Hdt | exact Hi].
Defined.

Lemma planet_spin_magnitude_positive_witness :
  store_contract ref_library /\
  spin_contract ref_library /\
  exists w_S sx sy sz,
    run_iterations ref_library 0 = Some (tt, w_S) /\
    param (sim w_S) 1 "spin_sz" = Some sz /\
    0 < sqrt (sx * sx + sy * sy + sz * sz).
Proof.
  split; [exact ref_store_contract|]. split; [exact ref_spin_contract|].
  destruct (planet_spin_magnitude_positive ref_library ref_store_contract ref_spin_contract)
    as (w_S & _ & _ & _ & _ & sx & sy & sz & E & _ & _ & _ & _ & _ & Hz & _ & _ & _ & _ & _ &
        Hmag & _).
  exists w_S, sx, sy, sz. split; [exact E|]. split; [exact Hz | exact Hmag].
Defined.

Lemma record_times_follow_clock_witness :
  store_contract ref_library /\
  clock_contract ref_library /\
  exists w,
    main ref_library = Some (tt, w) /\
    length (record_times (trace w)) = Z.to_nat N_ITER /\
    StronglySorted Rlt (record_times (trace w)).
Proof.
  split; [exact ref_store_contract|]. split; [exact ref_clock_contract|].
  destruct (record_times_follow_clock ref_library ref_store_contract ref_clock_contract)
    as (_ & _ & w & _ & _ & E & Hlen & _ & Hs).
  exists w. split; [exact E|]. split; [exact Hlen | exact Hs].
Defined.

(** * The installed callback *)

Section Callback.

Context {lib_state : Type}.
Variable L : @library lib_state.

(** The values stored into [r->heartbeat], in order. *)
Definition heartbeat_store (e : event) : option callback :=
  match e with Ev_store_heartbeat c => Some c | _ => None end.

(** The callback is the one that was there. *)
Definition keeps_callback (s s' : @reb_simulation lib_state) : Prop :=
  heartbeat_cb s' = heartbeat_cb s.

(** [r->heartbeat] belongs to the caller: no library call of the setup,
    and no [reb_integrate] call, replaces it. *)
Record callback_contract : Prop := mk_callback_contract {
  reb_add_callback : forall s p, keeps_callback s (reb_add L s p);
  reb_add_fmt_callback : forall s fmt args, keeps_callback s (reb_add_fmt L s fmt args);
  rebx_attach_callback : forall s, keeps_callback s (rebx_attach L s);
  rebx_load_force_callback : forall s name, keeps_callback s (rebx_load_force L s name);
  rebx_add_force_callback : forall s name, keeps_callback s (rebx_add_force L s name);
  rebx_set_time_lag_callback :
    forall s i tau, keeps_callback s (rebx_set_time_lag L s i tau);
  reb_move_to_com_callback : forall s, keeps_callback s (reb_move_to_com L s);
  align_simulation_callback : forall s, keeps_callback s (align_simulation L s);
  rebx_spin_initialize_ode_callback :
    forall s name, keeps_callback s (rebx_spin_initialize_ode L s name);
  reb_integrate_callback : forall s target, keeps_callback s (reb_integrate L s target)
}.

Definition installed (s : @reb_simulation lib_state) : Prop :=
  heartbeat_cb s = CB_heartbeat.

Lemma installed_kept (s s' : @reb_simulation lib_state) :
  keeps_callback s s' -> installed s -> installed s'.
Proof. unfold keeps_callback, installed. congruence. Qed.

Lemma rebx_set_param_double_callback (s s' : @reb_simulation lib_state)
    (i : nat) (key : string) (v : R) :
  rebx_set_param_double s i key v = Some s' -> keeps_callback s s'.
Proof.
  unfold rebx_set_param_double. destruct (particles s !! i); [|discriminate].
  intros E. injection E as <-. reflexivity.
Qed.

Lemma holds_after_set_param_installed (i : nat) (key : string) (v : R) :
  holds_after installed installed (set_param (lib_state := lib_state) i key v).
Proof.
  intros w a w' E Hw.
  unfold set_param, bind, emit, get_sim, put_sim, of_option, ret, abort in E.
  cbn [sim trace] in E.
  destruct (rebx_set_param_double (sim w) i key v) as [s'|] eqn:Es; [|discriminate].
  injection E as _ <-. cbn [sim].
  exact (installed_kept _ _ (rebx_set_param_double_callback _ _ _ _ _ Es) Hw).
Qed.

Ltac callback_step HB :=
  first
    [ apply holds_after_set_param_installed
    | apply holds_after_emit
    | apply holds_after_act; intros s Hs;
      refine (installed_kept _ _ _ Hs);
      first
        [ apply (reb_add_callback HB) | apply (reb_add_fmt_callback HB)
        | apply (rebx_attach_callback HB) | apply (rebx_load_force_callback HB)
        | apply (rebx_add_force_callback HB) | apply (rebx_set_time_lag_callback HB)
        | apply (reb_move_to_com_callback HB) | apply (align_simulation_callback HB)
        | apply (rebx_spin_initialize_ode_callback HB) ] ].

(** Whatever state the setup is started in, if it returns it leaves the
    driver's callback in [r->heartbeat]. *)
Lemma main_setup_installed (HB : callback_contract) :
  holds_after (fun _ => True) installed (main_setup L).
Proof.
  unfold main_setup.
  apply holds_after_bind with (Q := fun _ => True).
  { apply holds_after_act. intros s _. exact I. }
  intros _.
  apply holds_after_bind with (Q := fun _ => True).
  { apply holds_after_act. intros s _. exact I. }
  intros _.
  apply holds_after_bind with (Q := installed).
  { apply holds_after_act. intros s _. reflexivity. }
  intros _.
  repeat (apply holds_after_bind with (Q := installed);
          [callback_step HB | intros _]).
  callback_step HB.
Qed.

(** X8: the callback installed at line 25 is in place whenever the
    integrator runs: every iteration of the loop hands [reb_integrate] a
    simulation whose [heartbeat] field holds the driver's callback.  Line 25
    is the only store into the field, and it comes before the first
    [reb_integrate] call. *)
Theorem heartbeat_installed (HC : store_contract L) (HB : callback_contract) :
  (forall k, (k < Z.to_nat N_ITER)%nat ->
     exists w_k evs,
       run_iterations L k = Some (tt, w_k) /\
       heartbeat_cb (sim w_k) = CB_heartbeat /\
       main_loop_body L (Z.of_nat k) w_k =
         Some (tt, mk_world (reb_integrate L (sim w_k) (t (sim w_k) + 100 * 2 * PI))
                            (trace w_k ++ evs)) /\
       integrate_targets evs = [t (sim w_k) + 100 * 2 * PI]) /\
  exists w,
    main L = Some (tt, w) /\
    omap heartbeat_store (trace w) = [CB_heartbeat] /\
    before_integration (Ev_store_heartbeat CB_heartbeat) (trace w).
Proof.
  split.
  - intros k _.
    destruct (loop_entry L HC) as (w_S & E & Hr & Htr).
    destruct (run_iterations_rule L HC w_S (fun _ w => installed (sim w)) E Hr)
      with (k := k) as (w_k & Ek & Hrk & Hk).
    + exact (main_setup_installed HB (start L) tt w_S E I).
    + intros j s tr pa pb pc ax ay az bx byy bz _ IH. cbn [sim] in *.
      exact (installed_kept _ _ (reb_integrate_callback HB _ _) IH).
    + destruct (ready_reads (sim w_k) Hrk)
        as (pa & pb & pc & ax & ay & az & bx & byy & bz & Hreads).
      destruct w_k as [s tr]. cbn [sim trace] in *.
      eexists. eexists. split; [exact Ek|]. split; [exact Hk|].
      split; [exact (main_loop_body_explicit L (Z.of_nat k) s tr pa pb pc ax ay az
                       bx byy bz Hreads)|].
      apply integrate_targets_iteration.
  - destruct (main_run L HC) as (w_S & w_N & evs & _ & _ & _ & _ & _ & HF & Emain).
    eexists. split; [exact Emain|]. cbn [trace]. split.
    + rewrite setup_reading; [reflexivity | | exact (lf_events _ _ _ _ _ HF)].
      intros [] He; try reflexivity; destruct He.
    + apply before_integration_setup. unfold setup_events; cbn [In].
      repeat first [left; reflexivity | right].
Qed.

End Callback.

Lemma ref_callback_contract : callback_contract ref_library.
Proof. constructor; cbn; intros; reflexivity. Qed.

Lemma heartbeat_installed_witness :
  store_contract ref_library /\
  callback_contract ref_library /\
  exists w,
    main ref_library = Some (tt, w) /\
    omap heartbeat_store (trace w) = [CB_heartbeat].
Proof.
  split; [exact ref_store_contract|]. split; [exact ref_callback_contract|].
  destruct (heartbeat_installed ref_library ref_store_contract ref_callback_contract)
    as (_ & w & E & Hst & _).
  exists w. split; [exact E | exact Hst].
Defined.
